(** * HugoDocumenter (src/yaml/ISDPYamlFile.ts) and CustomDocNodes: a shallow embedding

    The API item tree of @microsoft/api-extractor-model, the output-path
    function [_getFilenameForApiItem], the page builder [_writeApiItemPage]
    with its table writers, the driver [generateFiles], and the memoised
    [CustomDocNodes.configuration] getter. *)

From Stdlib Require Import Ascii Numbers.DecimalString Numbers.DecimalNat.
From stdpp Require Import base list gmap strings.

Local Open Scope string_scope.
Local Open Scope list_scope.
#[local] Set Warnings "-register-all".
#[local] Arguments String.append : simpl nomatch.

(* ================================================================== *)
(** ** The API item model *)

Inductive ApiItemKind :=
| CallSignature | Class_ | ConstructSignature | Constructor | EntryPoint
| Enum | EnumMember | Function_ | IndexSignature | Interface | Method
| MethodSignature | Model | Namespace | Package | Property_
| PropertySignature | TypeAlias | Variable_.

#[global] Instance ApiItemKind_eq_dec : EqDecision ApiItemKind.
Proof. solve_decision. Defined.

(** The string values of the [ApiItemKind] enum, as in [`${apiItem.kind}`]. *)
Definition apiItemKindName (k : ApiItemKind) : string :=
  match k with
  | CallSignature => "CallSignature" | Class_ => "Class"
  | ConstructSignature => "ConstructSignature" | Constructor => "Constructor"
  | EntryPoint => "EntryPoint" | Enum => "Enum" | EnumMember => "EnumMember"
  | Function_ => "Function" | IndexSignature => "IndexSignature"
  | Interface => "Interface" | Method => "Method"
  | MethodSignature => "MethodSignature" | Model => "Model"
  | Namespace => "Namespace" | Package => "Package" | Property_ => "Property"
  | PropertySignature => "PropertySignature" | TypeAlias => "TypeAlias"
  | Variable_ => "Variable"
  end.

Inductive ReleaseTag := RT_None | RT_Internal | RT_Alpha | RT_Beta | RT_Public.

#[global] Instance ReleaseTag_eq_dec : EqDecision ReleaseTag.
Proof. solve_decision. Defined.

Inductive ExcerptTokenKind := ETK_Content | ETK_Reference.

#[global] Instance ExcerptTokenKind_eq_dec : EqDecision ExcerptTokenKind.
Proof. solve_decision. Defined.

(** An excerpt token: literal text, or a reference with an optional
    canonical declaration reference (kept as its string form). *)
Record ExcerptToken := mkToken {
  tokenKind : ExcerptTokenKind;
  tokenText : string;
  canonicalReference : option string;
}.

#[global] Instance ExcerptToken_eq_dec : EqDecision ExcerptToken.
Proof. solve_decision. Defined.

(** An [Excerpt] is the list of its spanned tokens; its text is their
    concatenation. *)
Definition Excerpt := list ExcerptToken.

Definition excerptText (e : Excerpt) : string :=
  foldr (fun t acc => tokenText t +:+ acc) "" e.

(** A TSDoc block ([DocBlock]): its upper-cased tag name and its content.
    Content nodes come from the TSDoc parser and are kept opaque: one
    string per parsed node (the parser never yields the custom kinds). *)
Record DocBlock := mkBlock {
  tagNameWithUpperCase : string;
  blockContent : list string;
}.

#[global] Instance DocBlock_eq_dec : EqDecision DocBlock.
Proof. solve_decision. Defined.

Record DocComment := mkComment {
  summarySection : list string;
  remarksBlock : option (list string);
  deprecatedBlock : option (list string);
  returnsBlock : option (list string);
  customBlocks : list DocBlock;
}.

#[global] Instance DocComment_eq_dec : EqDecision DocComment.
Proof. solve_decision. Defined.

Record ApiParameter := mkParameter {
  parameterName : string;
  parameterIsOptional : bool;
  parameterTypeExcerpt : Excerpt;
}.

#[global] Instance ApiParameter_eq_dec : EqDecision ApiParameter.
Proof. solve_decision. Defined.

(** The fields of an item that the documenter reads.  Fields that a kind
    does not carry (e.g. [overloadIndex] outside [ApiParameterListMixin])
    are ignored through the mixin predicates below.  For an entry point,
    [displayName] is its [name], i.e. its import path. *)
Record ApiItem := mkItem {
  kind : ApiItemKind;
  displayName : string;
  overloadIndex : nat;
  releaseTag : ReleaseTag;
  itemComment : option DocComment;
  excerptTokens : Excerpt;
  excerptWithModifiers : string;
  extendsType : option Excerpt;
  implementsTypes : list Excerpt;
  extendsTypes : list Excerpt;
  isAbstract : bool;
  isEventProperty : bool;
  parameters : list ApiParameter;
  returnTypeExcerpt : Excerpt;
}.

#[global] Instance ApiItem_eq_dec : EqDecision ApiItem.
Proof. solve_decision. Defined.

(** An item with its members. *)
Inductive ApiTree := Node (item : ApiItem) (members : list ApiTree).

Definition treeItem (t : ApiTree) : ApiItem := match t with Node x _ => x end.
Definition treeMembers (t : ApiTree) : list ApiTree := match t with Node _ cs => cs end.

(** Mixin / class membership of api-extractor-model, by kind. *)
Definition isParameterListKind (k : ApiItemKind) : bool :=
  match k with
  | CallSignature | ConstructSignature | Constructor | Function_
  | IndexSignature | Method | MethodSignature => true
  | _ => false
  end.

Definition isReturnTypeKind (k : ApiItemKind) : bool :=
  match k with
  | CallSignature | ConstructSignature | Function_ | IndexSignature
  | Method | MethodSignature => true
  | _ => false
  end.

(** [ApiDeclaredItem]: everything but the model, packages and entry points. *)
Definition isDeclaredKind (k : ApiItemKind) : bool :=
  match k with Model | Package | EntryPoint => false | _ => true end.

(** [ApiDocumentedItem]: the declared items and packages. *)
Definition isDocumentedKind (k : ApiItemKind) : bool :=
  match k with Model | EntryPoint => false | _ => true end.

Definition isReleaseTagKind (k : ApiItemKind) : bool := isDeclaredKind k.

Definition isAbstractKind (k : ApiItemKind) : bool :=
  match k with Class_ | Method | Property_ => true | _ => false end.

(** [apiItem instanceof ApiDocumentedItem ? apiItem.tsdocComment : -] *)
Definition tsdocComment (x : ApiItem) : option DocComment :=
  if isDocumentedKind (kind x) then itemComment x else None.

(* ================================================================== *)
(** ** String helpers *)

Definition isSafeFilenameChar (c : ascii) : bool :=
  let n := nat_of_ascii c in
  (Nat.leb 97 n && Nat.leb n 122) || (Nat.leb 65 n && Nat.leb n 90)
  || (Nat.leb 48 n && Nat.leb n 57)
  || bool_decide (c = "_"%char) || bool_decide (c = "-"%char)
  || bool_decide (c = "."%char).

(** Modelled from the spec: [Utilities.getSafeFilenameForName]
    (src/utils/Utilities.ts is not among the sources).  The spec asks for a
    total, deterministic conversion that replaces the characters illegal in
    a path segment by a fixed escape; here every character outside
    [A-Za-z0-9_.-] becomes [_]. *)
Fixpoint getSafeFilenameForName (s : string) : string :=
  match s with
  | EmptyString => EmptyString
  | String c r =>
      String (if isSafeFilenameChar c then c else "_"%char)
             (getSafeFilenameForName r)
  end.

Fixpoint afterFirstSlash (s : string) : string :=
  match s with
  | EmptyString => EmptyString
  | String c r => if bool_decide (c = "/"%char) then r else afterFirstSlash r
  end.

(** [PackageName.getUnscopedName] of @rushstack/node-core-library where it
    returns: ["@scope/name"] gives ["name"], an unscoped name is returned
    unchanged.  The library throws on a name that is not a valid package
    name; that is modelled by [PackageName_getUnscopedName] below, which
    agrees with this function wherever it returns
    ([PackageName_getUnscopedName_agrees]). *)
Definition getUnscopedName (s : string) : string :=
  match s with
  | String c _ => if bool_decide (c = "@"%char) then afterFirstSlash s else s
  | EmptyString => EmptyString
  end.

(** The decimal text of a non-negative integer, as in [`${n}`]. *)
Definition numberToString (n : nat) : string :=
  NilEmpty.string_of_uint (Nat.to_uint n).

(* ================================================================== *)
(** ** [_getFilenameForApiItem] and [_getLinkFilenameForApiItem]

    An item is referred to by its hierarchy ([apiItem.getHierarchy()]):
    the list of its ancestors from the model down to the item itself.
    [hierarchyItem === apiItem] holds exactly for the last element. *)

Definition qualifiedName (h : ApiItem) : string :=
  let q := getSafeFilenameForName (displayName h) in
  let q := if isParameterListKind (kind h) && Nat.ltb 1 (overloadIndex h)
           then q +:+ "_" +:+ numberToString (overloadIndex h - 1) else q in
  if bool_decide (kind h = Variable_) then "var_" +:+ q else q.

(** One iteration of the loop over the hierarchy; [isSelf] is
    [hierarchyItem === apiItem]. *)
Definition filenameStep (baseName : string) (h : ApiItem) (isSelf : bool) : string :=
  match kind h with
  | Model | EnumMember => baseName
  | EntryPoint =>
      let entrypointName := displayName h in
      if Nat.ltb 0 (String.length entrypointName)
      then baseName +:+ "/" +:+ getSafeFilenameForName (getUnscopedName entrypointName)
      else baseName +:+ "/_root"
  | Package =>
      let b := getSafeFilenameForName (getUnscopedName (displayName h)) in
      if isSelf then b +:+ "/_root" else b
  | _ => baseName +:+ "/" +:+ qualifiedName h
  end.

Fixpoint filenameLoop (baseName : string) (hierarchy : list ApiItem) : string :=
  match hierarchy with
  | [] => baseName
  | [h] => filenameStep baseName h true
  | h :: rest => filenameLoop (filenameStep baseName h false) rest
  end.

Definition _getFilenameForApiItem (hierarchy : list ApiItem) : string :=
  match last hierarchy with
  | Some x => if bool_decide (kind x = Model) then "_index.md"
              else filenameLoop "" hierarchy +:+ "/_index.md"
  | None => "/_index.md"
  end.

Definition _baseUrl : string := "/docs".

Definition _getLinkFilenameForApiItem (hierarchy : list ApiItem) : string :=
  _baseUrl +:+ "/" +:+ _getFilenameForApiItem hierarchy.

(* ================================================================== *)
(** ** Package names, with the library's errors

    Modelled from @rushstack/node-core-library (not among the sources):
    [PackageName] is a [PackageNameParser] with the default options, its
    [getUnscopedName(name)] is [parse(name).unscopedName], and [parse]
    throws the error that [tryParse] reports. *)

Definition dquote : string := String (ascii_of_nat 34) EmptyString.

Definition quoted (s : string) : string := dquote +:+ s +:+ dquote.

Fixpoint beforeFirstSlash (s : string) : string :=
  match s with
  | EmptyString => EmptyString
  | String c r => if bool_decide (c = "/"%char) then EmptyString else String c (beforeFirstSlash r)
  end.

Definition containsSlash (s : string) : bool :=
  existsb (fun c => bool_decide (c = "/"%char)) (String.list_ascii_of_string s).

Definition isUpperChar (c : ascii) : bool :=
  let n := nat_of_ascii c in Nat.leb 65 n && Nat.leb n 90.

(** [tryParse]: the error, or the unscoped name.  [_invalidNameCharactersRegExp]
    is [/[^A-Za-z0-9\-_\.]/]; the scope is checked through
    [scope.slice(1, -1)]. *)
Definition PackageName_tryParse (packageName : string) : string + string :=
  if Nat.ltb 214 (String.length packageName)
  then inl "The package name cannot be longer than 214 characters" else
  let scoped := match packageName with
                | String c _ => bool_decide (c = "@"%char) | EmptyString => false end in
  if scoped && negb (containsSlash packageName)
  then inl ("Error parsing " +:+ quoted packageName +:+ ": The scope must be followed by a slash") else
  let scope := if scoped then beforeFirstSlash packageName else "" in
  let unscopedName := if scoped then afterFirstSlash packageName else packageName in
  if bool_decide (scope = "@")
  then inl ("Error parsing " +:+ quoted packageName +:+ ": The scope name cannot be empty") else
  match unscopedName with
  | EmptyString => inl "The package name must not be empty"
  | String c0 _ =>
      if bool_decide (c0 = "."%char) || bool_decide (c0 = "_"%char)
      then inl ("The package name " +:+ quoted packageName +:+ " starts with an invalid character") else
      let nameWithoutScopeSymbols :=
        (if bool_decide (scope = "") then "" else String.substring 1 (String.length scope - 2) scope)
        +:+ unscopedName in
      if existsb isUpperChar (String.list_ascii_of_string scope)
      then inl ("The package scope " +:+ quoted scope +:+ " must not contain upper case characters") else
      match List.find (fun c => negb (isSafeFilenameChar c)) (String.list_ascii_of_string nameWithoutScopeSymbols) with
      | Some c => inl ("The package name " +:+ quoted packageName +:+ " contains an invalid character: " +:+
                       quoted (String c EmptyString))
      | None => inr unscopedName
      end
  end.

Definition PackageName_getUnscopedName (packageName : string) : string + string :=
  PackageName_tryParse packageName.

(** [_getFilenameForApiItem] with the errors of [PackageName.getUnscopedName]:
    the loop throws at the first package, or entry point with a non-empty
    name, whose name is not a valid package name. *)
Definition filenameStepE (baseName : string) (h : ApiItem) (isSelf : bool) : string + string :=
  match kind h with
  | Model | EnumMember => inr baseName
  | EntryPoint =>
      let entrypointName := displayName h in
      if Nat.ltb 0 (String.length entrypointName)
      then match PackageName_getUnscopedName entrypointName with
           | inl err => inl err
           | inr u => inr (baseName +:+ "/" +:+ getSafeFilenameForName u)
           end
      else inr (baseName +:+ "/_root")
  | Package =>
      match PackageName_getUnscopedName (displayName h) with
      | inl err => inl err
      | inr u => let b := getSafeFilenameForName u in inr (if isSelf then b +:+ "/_root" else b)
      end
  | _ => inr (baseName +:+ "/" +:+ qualifiedName h)
  end.

Fixpoint filenameLoopE (baseName : string) (hierarchy : list ApiItem) : string + string :=
  match hierarchy with
  | [] => inr baseName
  | [h] => filenameStepE baseName h true
  | h :: rest =>
      match filenameStepE baseName h false with
      | inl err => inl err
      | inr b => filenameLoopE b rest
      end
  end.

Definition _getFilenameForApiItemE (hierarchy : list ApiItem) : string + string :=
  match last hierarchy with
  | Some x => if bool_decide (kind x = Model) then inr "_index.md"
              else match filenameLoopE "" hierarchy with
                   | inl err => inl err
                   | inr b => inr (b +:+ "/_index.md")
                   end
  | None => inr "/_index.md"
  end.

(** The names in [h] on which [_getFilenameForApiItem] calls
    [PackageName.getUnscopedName] are valid package names. *)
Definition namesParse (h : ApiItem) : Prop :=
  match kind h with
  | Package => exists u, PackageName_getUnscopedName (displayName h) = inr u
  | EntryPoint => displayName h <> "" -> exists u, PackageName_getUnscopedName (displayName h) = inr u
  | _ => True
  end.


(* ================================================================== *)
(** ** Document nodes *)

(** Table cells are kept symbolic: each names the helper of the documenter
    that builds it ([_createTitleCell], [_createDescriptionCell], ...) and
    the item or parameter it is built from; only the path cell of the
    entry-point table is built inline. *)
Inductive DocTableCell :=
| TitleCell (target : list ApiItem)
| DescriptionCell (target : list ApiItem) (isInherited : bool)
| ModifiersCell (target : list ApiItem)
| PropertyTypeCell (target : list ApiItem)
| InitializerCell (target : list ApiItem)
| ConciseSignatureCell (target : list ApiItem)
| ParameterNameCell (p : ApiParameter)
| ParameterTypeCell (p : ApiParameter)
| ParameterDescriptionCell (p : ApiParameter)
| EntrypointPathCell (linkText urlDestination : string).

Definition DocTableRow := list DocTableCell.

(** The standard TSDoc node kinds the documenter builds, the six custom
    kinds ([DocEmphasisSpan], [DocHeading], [DocNoteBox], [DocTable]; rows
    and cells inside tables), and [TsdocNode] for a node moved over from a
    parsed comment. *)
Inductive DocNode :=
| PlainText (text : string)
| CodeSpan (code : string)
| FencedCode (code language : string)
| LinkTag (linkText urlDestination : string)
| Paragraph (children : list DocNode)
| EmphasisSpan (bold italic : bool) (children : list DocNode)
| Heading (title : string)
| NoteBox (children : list DocNode)
| Table (headerTitles : list string) (rows : list DocTableRow)
| TsdocNode (node : string).

(** [DocSection.appendNodeInParagraph]: into the last node if it is a
    paragraph, otherwise into a new paragraph. *)
Definition appendNodeInParagraph (output : list DocNode) (n : DocNode) : list DocNode :=
  match last output with
  | Some (Paragraph ch) => removelast output ++ [Paragraph (ch ++ [n])]
  | _ => output ++ [Paragraph [n]]
  end.

(** [_appendSection]: the section's nodes are moved over one by one. *)
Definition _appendSection (output : list DocNode) (section : list string) : list DocNode :=
  output ++ map TsdocNode section.

(* ================================================================== *)
(** ** The documenter's options and collaborators *)

Inductive NewlineKind := CrLf | Lf | OsDefault.

Record FrontMatter := mkFrontMatter { fmTitle : string; fmMenuWeight : option nat }.

(** A loaded plugin feature: its [onBeforeWritePage] hook maps
    (apiItem, outputFilename, pageContent) to the new pageContent. *)
Record MarkdownDocumenterFeature := mkFeature {
  onBeforeWritePage : list ApiItem -> string -> string -> string;
}.

Record DocumenterConfig := mkConfig {
  newlineKind : NewlineKind;
  showInheritedMembers : bool;
  pluginFeature : option MarkdownDocumenterFeature;
}.

Record IMarkdownDocumenterOptions := mkOptions {
  apiModel : ApiTree;
  documenterConfig : option DocumenterConfig;
  outputFolder : string;
}.

(** [IFindApiItemsResult]: each found member with its ancestors. *)
Record IFindApiItemsResult := mkFindResult {
  foundItems : list (list ApiItem * ApiTree);
  maybeIncompleteResult : bool;
  messages : list string;
}.

(** The collaborators the documenter calls but that live outside this
    file: [ApiModel.resolveDeclarationReference] (the hierarchy of the
    resolved item, if any), [findMembersWithInheritance], the
    [HugoMarkdownEmitter], and [os.EOL]. *)
Record Collaborators := mkCollaborators {
  resolveDeclarationReference : string -> option (list ApiItem);
  findMembersWithInheritance : list ApiItem -> IFindApiItemsResult;
  emitWithFrontMatter : FrontMatter -> list DocNode -> list ApiItem -> string;
  osEOL : string;
}.

(* ================================================================== *)
(** ** Effects: the trace of a run, and thrown errors *)

Record Page := mkPage {
  pageItem : list ApiItem;
  pageFrontMatter : FrontMatter;
  pageBody : list DocNode;
}.

(** [WriteFile page filename contents]: [FileSystem.writeFile] of
    [contents] (already line-ending converted) to [filename]; [page] is
    what the emitter rendered into it. *)
Inductive Event :=
| Log (line : string)
| EnsureEmptyFolder (folder : string)
| WriteFile (page : Page) (filename : string) (contents : string)
| OnFinished.

(** A run threads the trace; a thrown [Error] ([inl]) keeps the events
    already performed. *)
Definition M (A : Type) : Type := list Event -> (string + A) * list Event.

Definition mret {A} (a : A) : M A := fun tr => (inr a, tr).
Definition mbind {A B} (m : M A) (f : A -> M B) : M B :=
  fun tr => match m tr with
            | (inr a, tr') => f a tr'
            | (inl e, tr') => (inl e, tr')
            end.
Definition mthrow {A} (msg : string) : M A := fun tr => (inl msg, tr).
Definition perform (e : Event) : M unit := fun tr => (inr tt, tr ++ [e]).

Notation "x <- m ;; k" := (mbind m (fun x => k))
  (at level 100, m at next level, right associativity).
Notation "m ;;; k" := (mbind m (fun _ => k)) (at level 100, right associativity).

Fixpoint mfold {A B} (f : A -> B -> M A) (a : A) (l : list B) : M A :=
  match l with
  | [] => mret a
  | b :: l' => mbind (f a b) (fun a' => mfold f a' l')
  end.

(** [FileSystem.writeFile] with [convertLineEndings] applies
    [Text.convertTo] of @rushstack/node-core-library: every match of
    [/\r\n|\n\r|\r|\n/g] is replaced by the chosen newline. *)
Definition CR : ascii := ascii_of_nat 13.
Definition LF : ascii := ascii_of_nat 10.

Fixpoint convertTo (newline : string) (s : string) : string :=
  match s with
  | EmptyString => EmptyString
  | String c r =>
      if bool_decide (c = CR) then
        match r with
        | String c' r' => if bool_decide (c' = LF) then newline +:+ convertTo newline r'
                          else newline +:+ convertTo newline r
        | EmptyString => newline
        end
      else if bool_decide (c = LF) then
        match r with
        | String c' r' => if bool_decide (c' = CR) then newline +:+ convertTo newline r'
                          else newline +:+ convertTo newline r
        | EmptyString => newline
        end
      else String c (convertTo newline r)
  end.

Definition getNewline (env : Collaborators) (k : NewlineKind) : string :=
  match k with
  | CrLf => String CR (String LF EmptyString)
  | Lf => String LF EmptyString
  | OsDefault => osEOL env
  end.

(* ================================================================== *)
(** ** The page builder of [HugoDocumenter] *)

Section Documenter.

Variable env : Collaborators.
Variable options : IMarkdownDocumenterOptions.

Definition _documenterConfig : option DocumenterConfig := documenterConfig options.
Definition _outputFolder : string := outputFolder options.

(** [this._pluginLoader.markdownDocumenterFeature] after [generateFiles]
    has (or has not) loaded the configured plugin. *)
Definition markdownDocumenterFeature : option MarkdownDocumenterFeature :=
  match _documenterConfig with
  | Some c => pluginFeature c
  | None => None
  end.

(** [ApiItem.getScopedNameWithinPackage] of api-extractor-model: the
    names below the entry point joined by ".", with "()" after a named
    function-like item. *)
Fixpoint scopedReversedParts (reversed : list ApiItem) (isFirst : bool) : list string :=
  match reversed with
  | [] => []
  | cur :: rest =>
      match kind cur with
      | Model | Package | EntryPoint => []
      | k =>
          let sep := if isFirst then
                       match k with
                       | CallSignature | ConstructSignature | Constructor | IndexSignature => []
                       | _ => if isParameterListKind k then ["()"] else []
                       end
                     else ["."] in
          sep ++ [displayName cur] ++ scopedReversedParts rest false
      end
  end.

Definition joinStrings (parts : list string) : string := foldr String.append "" parts.

Definition getScopedNameWithinPackage (hierarchy : list ApiItem) : string :=
  joinStrings (rev (scopedReversedParts (rev hierarchy) true)).

(** --- excerpts with hyperlinks --- *)

Definition isNewlineChar (c : ascii) : bool := bool_decide (c = CR) || bool_decide (c = LF).

(** [text.replace(/[\r\n]+/g, ' ')]; [inRun] is set inside a run of
    newline characters already replaced. *)
Fixpoint replaceNewlineRuns (inRun : bool) (s : string) : string :=
  match s with
  | EmptyString => EmptyString
  | String c r =>
      if isNewlineChar c then
        (if inRun then replaceNewlineRuns true r else String " " (replaceNewlineRuns true r))
      else String c (replaceNewlineRuns false r)
  end.

Definition _appendExcerptTokenWithHyperlinks (container : list DocNode) (token : ExcerptToken)
    : list DocNode :=
  let unwrappedTokenText := replaceNewlineRuns false (tokenText token) in
  let plain := container ++ [PlainText unwrappedTokenText] in
  if bool_decide (tokenKind token = ETK_Reference) then
    match canonicalReference token with
    | Some ref =>
        match resolveDeclarationReference env ref with
        | Some resolvedApiItem =>
            container ++ [LinkTag unwrappedTokenText (_getLinkFilenameForApiItem resolvedApiItem)]
        | None => plain
        end
    | None => plain
    end
  else plain.

Definition _appendExcerptWithHyperlinks (container : list DocNode) (excerpt : Excerpt)
    : list DocNode :=
  foldl _appendExcerptTokenWithHyperlinks container excerpt.

(** [String.prototype.trim] leaves nothing: only whitespace characters. *)
Fixpoint trimIsEmpty (s : string) : bool :=
  match s with
  | EmptyString => true
  | String c r =>
      let n := nat_of_ascii c in
      ((Nat.leb 9 n && Nat.leb n 13) || Nat.eqb n 32) && trimIsEmpty r
  end.

Definition _createParagraphForTypeExcerpt (excerpt : Excerpt) : DocNode :=
  if trimIsEmpty (excerptText excerpt) then Paragraph [PlainText "(not declared)"]
  else Paragraph (_appendExcerptWithHyperlinks [] excerpt).

Definition boldLabel (s : string) : DocNode := EmphasisSpan true false [PlainText s].

(** The [needsComma] loops of the "Implements:" and "Extends:" lists. *)
Fixpoint appendCommaSeparated (p : list DocNode) (needsComma : bool) (es : list Excerpt)
    : list DocNode :=
  match es with
  | [] => p
  | e :: rest =>
      let p := if needsComma then p ++ [PlainText ", "] else p in
      appendCommaSeparated (_appendExcerptWithHyperlinks p e) true rest
  end.

(** The filter of [_writeHeritageTypes] for type aliases. *)
Definition isResolvedReference (token : ExcerptToken) : bool :=
  bool_decide (tokenKind token = ETK_Reference) &&
  match canonicalReference token with
  | Some ref => match resolveDeclarationReference env ref with Some _ => true | None => false end
  | None => false
  end.

(** The loop over [refs], with its [visited] set of token texts. *)
Fixpoint referencesLoop (p : list DocNode) (needsComma : bool) (visited : gset string)
    (refs : list ExcerptToken) : list DocNode :=
  match refs with
  | [] => p
  | ref :: rest =>
      if bool_decide (tokenText ref ∈ visited) then referencesLoop p needsComma visited rest
      else
        let p := if needsComma then p ++ [PlainText ", "] else p in
        referencesLoop (_appendExcerptTokenWithHyperlinks p ref) true
                       ({[tokenText ref]} ∪ visited) rest
  end.

Definition typeAliasRefs (x : ApiItem) : list ExcerptToken :=
  filter (fun t => isResolvedReference t = true) (excerptTokens x).

Definition _writeHeritageTypes (output : list DocNode) (x : ApiItem) : list DocNode :=
  let output :=
    if bool_decide (kind x = Class_) then
      let output := match extendsType x with
                    | Some e => output ++ [Paragraph (_appendExcerptWithHyperlinks [boldLabel "Extends: "] e)]
                    | None => output
                    end in
      match implementsTypes x with
      | [] => output
      | ts => output ++ [Paragraph (appendCommaSeparated [boldLabel "Implements: "] false ts)]
      end
    else output in
  let output :=
    if bool_decide (kind x = Interface) then
      match extendsTypes x with
      | [] => output
      | ts => output ++ [Paragraph (appendCommaSeparated [boldLabel "Extends: "] false ts)]
      end
    else output in
  if bool_decide (kind x = TypeAlias) then
    match typeAliasRefs x with
    | [] => output
    | refs => output ++ [Paragraph (referencesLoop [boldLabel "References: "] false ∅ refs)]
    end
  else output.

(** --- comment sections --- *)

Definition blocksTagged (tag : string) (c : DocComment) : list DocBlock :=
  filter (fun b => tagNameWithUpperCase b = tag) (customBlocks c).

(** The [@example] loop: numbered headings only when there are several. *)
Fixpoint exampleLoop (output : list DocNode) (exampleNumber total : nat)
    (blocks : list DocBlock) : list DocNode :=
  match blocks with
  | [] => output
  | b :: rest =>
      let heading := if Nat.ltb 1 total then "Example " +:+ numberToString exampleNumber
                     else "Example" in
      exampleLoop (_appendSection (output ++ [Heading heading]) (blockContent b))
                  (S exampleNumber) total rest
  end.

Definition _writeRemarksSection (output : list DocNode) (x : ApiItem) : list DocNode :=
  match tsdocComment x with
  | Some c =>
      let output := match remarksBlock c with
                    | Some r => _appendSection (output ++ [Heading "Remarks"]) r
                    | None => output
                    end in
      let exampleBlocks := blocksTagged "@EXAMPLE" c in
      exampleLoop output 1 (length exampleBlocks) exampleBlocks
  | None => output
  end.

Definition _writeThrowsSection (output : list DocNode) (x : ApiItem) : list DocNode :=
  match tsdocComment x with
  | Some c =>
      match blocksTagged "@THROWS" c with
      | [] => output
      | throwsBlocks =>
          foldl (fun o b => _appendSection o (blockContent b))
                (output ++ [Heading "Exceptions"]) throwsBlocks
      end
  | None => output
  end.

Definition _writeAlphaWarning (output : list DocNode) : list DocNode :=
  output ++ [NoteBox [Paragraph [PlainText
    ("This API is provided as an alpha preview for developers and may change"
     +:+ " based on feedback that we receive.  Do not use this API in a production environment.")]]].

Definition _writeBetaWarning (output : list DocNode) : list DocNode :=
  output ++ [NoteBox [Paragraph [PlainText
    ("This API is provided as a beta preview for developers and may change"
     +:+ " based on feedback that we receive.  Do not use this API in a production environment.")]]].

(** Everything [_writeApiItemPage] appends before the Remarks / kind
    specific part: release warning, deprecation box and summary, signature
    and heritage, decorators. *)
Definition writePrelude (x : ApiItem) : list DocNode :=
  let output : list DocNode := [] in
  let output :=
    if isReleaseTagKind (kind x) then
      match releaseTag x with
      | RT_Alpha => _writeAlphaWarning output
      | RT_Beta => _writeBetaWarning output
      | _ => output
      end
    else output in
  let decoratorBlocks :=
    match tsdocComment x with Some c => blocksTagged "@DECORATOR" c | None => [] end in
  let output :=
    match tsdocComment x with
    | Some c =>
        let output := match deprecatedBlock c with
                      | Some d => output ++ [NoteBox (Paragraph [PlainText "Warning: This API is now obsolete. "]
                                                      :: map TsdocNode d)]
                      | None => output
                      end in
        _appendSection output (summarySection c)
    | None => output
    end in
  let output :=
    if isDeclaredKind (kind x) then
      let output := if Nat.ltb 0 (String.length (excerptText (excerptTokens x)))
                    then output ++ [Paragraph [boldLabel "Signature:"];
                                    FencedCode (excerptWithModifiers x) "typescript"]
                    else output in
      _writeHeritageTypes output x
    else output in
  match decoratorBlocks with
  | [] => output
  | _ => foldl (fun o b => _appendSection o (blockContent b))
               (output ++ [Paragraph [boldLabel "Decorators:"]]) decoratorBlocks
  end.

(** The kinds whose Remarks are written before the kind-specific part. *)
Definition remarksFirst (k : ApiItemKind) : bool :=
  match k with Class_ | Interface | Namespace | Package => true | _ => false end.

(** The first [switch] of [_writeApiItemPage]: the front matter, [None]
    for the early [return] of the root entry point. *)
Definition frontMatterFor (anc : list ApiItem) (x : ApiItem) : M (option FrontMatter) :=
  let scopedName := getScopedNameWithinPackage (anc ++ [x]) in
  let titled s := mret (Some (mkFrontMatter s None)) in
  match kind x with
  | Class_ => titled (scopedName +:+ " class")
  | EntryPoint =>
      if bool_decide (displayName x = "") then mret None
      else
        let parentName := match last anc with Some p => displayName p | None => "" end in
        titled (getUnscopedName parentName +:+ "/" +:+ displayName x +:+ " entrypoint")
  | Enum => titled (scopedName +:+ " enum")
  | Interface => titled (scopedName +:+ " interface")
  | Constructor | ConstructSignature => titled scopedName
  | Method | MethodSignature => titled (scopedName +:+ " method")
  | Function_ => titled (scopedName +:+ " function")
  | Model => mret (Some (mkFrontMatter "API Reference" (Some 20)))
  | Namespace => titled (scopedName +:+ " namespace")
  | Package =>
      perform (Log ("Writing " +:+ displayName x +:+ " package")) ;;;
      titled (getUnscopedName (displayName x) +:+ " package")
  | Property_ | PropertySignature => titled (scopedName +:+ " property")
  | TypeAlias => titled (scopedName +:+ " type")
  | Variable_ => titled (scopedName +:+ " variable")
  | k => mthrow ("Unsupported API item kind: " +:+ apiItemKindName k)
  end.

(** [if (table.rows.length > 0) { heading; table }] *)
Definition appendTableSection (output : list DocNode) (title : string)
    (headerTitles : list string) (rows : list DocTableRow) : list DocNode :=
  match rows with
  | [] => output
  | _ => output ++ [Heading title; Table headerTitles rows]
  end.

(** --- the table writers; [writePage] is the recursive [_writeApiItemPage] --- *)

Variable writePage : list ApiItem -> ApiTree -> M unit.

(** GENERATE PAGE: MODEL *)
Definition _writeModelTable (hier : list ApiItem) (members : list ApiTree)
    (output : list DocNode) : M (list DocNode) :=
  rows <- mfold (fun rows m =>
            let mh := hier ++ [treeItem m] in
            let row := [TitleCell mh; DescriptionCell mh false] in
            if bool_decide (kind (treeItem m) = Package)
            then writePage hier m ;;; mret (rows ++ [row])
            else mret rows) [] members ;;
  mret (appendTableSection output "Packages" ["Package"; "Description"] rows).

Inductive PackageTable :=
| AbstractClassesTable | ClassesTable | EnumerationsTable | FunctionsTable
| InterfacesTable | NamespacesTable | VariablesTable | TypeAliasesTable.

#[global] Instance PackageTable_eq_dec : EqDecision PackageTable.
Proof. solve_decision. Defined.

(** The rows added to one table, in order. *)
Definition rowsOf {T} `{EqDecision T} (tbl : T) (added : list (T * DocTableRow)) : list DocTableRow :=
  map snd (filter (fun p => fst p = tbl) added).

Definition packageTableFor (m : ApiItem) : option PackageTable :=
  match kind m with
  | Class_ => Some (if isAbstractKind (kind m) && isAbstract m then AbstractClassesTable else ClassesTable)
  | Enum => Some EnumerationsTable
  | Interface => Some InterfacesTable
  | Namespace => Some NamespacesTable
  | Function_ => Some FunctionsTable
  | TypeAlias => Some TypeAliasesTable
  | Variable_ => Some VariablesTable
  | _ => None
  end.

(** GENERATE PAGE: PACKAGE or NAMESPACE *)
Definition _writePackageOrNamespaceTables (hier : list ApiItem) (container : ApiItem)
    (members : list ApiTree) (output : list DocNode) : M (list DocNode) :=
  output <-
    (if bool_decide (kind container = Package) then
       epRows <- mfold (fun rows ep =>
                   let e := treeItem ep in
                   let cell := EntrypointPathCell
                                 (displayName container +:+
                                  (if bool_decide (displayName e = "") then "" else "/" +:+ displayName e))
                                 (_getLinkFilenameForApiItem (hier ++ [e])) in
                   writePage hier ep ;;; mret (rows ++ [[cell]])) [] members ;;
       mret (if Nat.ltb 1 (length epRows)
             then output ++ [Heading "Entrypoints"; Table ["Path"] epRows] else output)
     else mret output) ;;
  let apiMembers :=
    if bool_decide (kind container = Package)
    then flat_map (fun ep => map (fun m => (hier ++ [treeItem ep], m)) (treeMembers ep)) members
    else map (fun m => (hier, m)) members in
  added <- mfold (fun added '(manc, m) =>
             let mh := manc ++ [treeItem m] in
             let row := [TitleCell mh; DescriptionCell mh false] in
             match packageTableFor (treeItem m) with
             | Some tbl => writePage manc m ;;; mret (added ++ [(tbl, row)])
             | None => mret added
             end) [] apiMembers ;;
  let output := appendTableSection output "Classes" ["Class"; "Description"] (rowsOf ClassesTable added) in
  let output := appendTableSection output "Abstract Classes" ["Abstract Class"; "Description"] (rowsOf AbstractClassesTable added) in
  let output := appendTableSection output "Enumerations" ["Enumeration"; "Description"] (rowsOf EnumerationsTable added) in
  let output := appendTableSection output "Functions" ["Function"; "Description"] (rowsOf FunctionsTable added) in
  let output := appendTableSection output "Interfaces" ["Interface"; "Description"] (rowsOf InterfacesTable added) in
  let output := appendTableSection output "Namespaces" ["Namespace"; "Description"] (rowsOf NamespacesTable added) in
  let output := appendTableSection output "Variables" ["Variable"; "Description"] (rowsOf VariablesTable added) in
  mret (appendTableSection output "Type Aliases" ["Type Alias"; "Description"] (rowsOf TypeAliasesTable added)).

Definition incompleteWarning : DocNode :=
  Paragraph [EmphasisSpan false true [PlainText
    "(Some inherited members may not be shown because they are not represented in the documentation.)"]].

Definition diagnosticLine (msg : string) : string :=
  "Diagnostic message for findMembersWithInheritance: " +:+ msg.

Definition _getMembersAndWriteIncompleteWarning (hier : list ApiItem) (members : list ApiTree)
    (output : list DocNode) : M (list (list ApiItem * ApiTree) * list DocNode) :=
  let showInherited := match _documenterConfig with Some c => showInheritedMembers c | None => false end in
  if negb showInherited then mret (map (fun m => (hier, m)) members, output)
  else
    let result := findMembersWithInheritance env hier in
    let output := if maybeIncompleteResult result then output ++ [incompleteWarning] else output in
    mfold (fun _ msg => perform (Log (diagnosticLine msg))) tt (messages result) ;;;
    mret (foundItems result, output).

Inductive MemberTable := EventsTable | ConstructorsTable | PropertiesTable | MethodsTable.

#[global] Instance MemberTable_eq_dec : EqDecision MemberTable.
Proof. solve_decision. Defined.

(** GENERATE PAGE: CLASS *)
Definition _writeClassTables (hier : list ApiItem) (members : list ApiTree)
    (output : list DocNode) : M (list DocNode) :=
  r <- _getMembersAndWriteIncompleteWarning hier members output ;;
  let '(apiMembers, output) := r in
  added <- mfold (fun added '(manc, m) =>
             let x := treeItem m in
             let mh := manc ++ [x] in
             let isInherited := bool_decide (manc <> hier) in
             match kind x with
             | Constructor =>
                 writePage manc m ;;;
                 mret (added ++ [(ConstructorsTable, [TitleCell mh; ModifiersCell mh; DescriptionCell mh isInherited])])
             | Method =>
                 writePage manc m ;;;
                 mret (added ++ [(MethodsTable, [TitleCell mh; ModifiersCell mh; DescriptionCell mh isInherited])])
             | Property_ =>
                 let tbl := if isEventProperty x then EventsTable else PropertiesTable in
                 writePage manc m ;;;
                 mret (added ++ [(tbl, [TitleCell mh; ModifiersCell mh; PropertyTypeCell mh;
                                        DescriptionCell mh isInherited])])
             | _ => mret added
             end) [] apiMembers ;;
  let output := appendTableSection output "Events" ["Property"; "Modifiers"; "Type"; "Description"] (rowsOf EventsTable added) in
  let output := appendTableSection output "Constructors" ["Constructor"; "Modifiers"; "Description"] (rowsOf ConstructorsTable added) in
  let output := appendTableSection output "Properties" ["Property"; "Modifiers"; "Type"; "Description"] (rowsOf PropertiesTable added) in
  mret (appendTableSection output "Methods" ["Method"; "Modifiers"; "Description"] (rowsOf MethodsTable added)).

(** GENERATE PAGE: ENUM *)
Definition _writeEnumTables (hier : list ApiItem) (members : list ApiTree)
    (output : list DocNode) : list DocNode :=
  let rows := map (fun m => let mh := hier ++ [treeItem m] in
                            [ConciseSignatureCell mh; InitializerCell mh; DescriptionCell mh false]) members in
  appendTableSection output "Enumeration Members" ["Member"; "Value"; "Description"] rows.

(** GENERATE PAGE: INTERFACE *)
Definition _writeInterfaceTables (hier : list ApiItem) (members : list ApiTree)
    (output : list DocNode) : M (list DocNode) :=
  r <- _getMembersAndWriteIncompleteWarning hier members output ;;
  let '(apiMembers, output) := r in
  added <- mfold (fun added '(manc, m) =>
             let x := treeItem m in
             let mh := manc ++ [x] in
             let isInherited := bool_decide (manc <> hier) in
             match kind x with
             | ConstructSignature | MethodSignature =>
                 writePage manc m ;;;
                 mret (added ++ [(MethodsTable, [TitleCell mh; DescriptionCell mh isInherited])])
             | PropertySignature =>
                 let tbl := if isEventProperty x then EventsTable else PropertiesTable in
                 writePage manc m ;;;
                 mret (added ++ [(tbl, [TitleCell mh; ModifiersCell mh; PropertyTypeCell mh;
                                        DescriptionCell mh isInherited])])
             | _ => mret added
             end) [] apiMembers ;;
  let output := appendTableSection output "Events" ["Property"; "Modifiers"; "Type"; "Description"] (rowsOf EventsTable added) in
  let output := appendTableSection output "Properties" ["Property"; "Modifiers"; "Type"; "Description"] (rowsOf PropertiesTable added) in
  mret (appendTableSection output "Methods" ["Method"; "Description"] (rowsOf MethodsTable added)).

(** GENERATE PAGE: FUNCTION-LIKE *)
Definition _writeParameterTables (output : list DocNode) (x : ApiItem) : list DocNode :=
  let rows := map (fun p => [ParameterNameCell p; ParameterTypeCell p; ParameterDescriptionCell p])
                  (parameters x) in
  let output := appendTableSection output "Parameters" ["Parameter"; "Type"; "Description"] rows in
  if isReturnTypeKind (kind x) then
    let output := output ++ [Paragraph []; Paragraph [boldLabel "Returns:"];
                             _createParagraphForTypeExcerpt (returnTypeExcerpt x)] in
    match tsdocComment x with
    | Some c => match returnsBlock c with Some r => _appendSection output r | None => output end
    | None => output
    end
  else output.

(** The second [switch] of [_writeApiItemPage]. *)
Definition writeKindContent (anc : list ApiItem) (x : ApiItem) (members : list ApiTree)
    (output : list DocNode) : M (list DocNode) :=
  let hier := anc ++ [x] in
  match kind x with
  | Class_ => _writeClassTables hier members output
  | Enum => mret (_writeEnumTables hier members output)
  | Interface => _writeInterfaceTables hier members output
  | Constructor | ConstructSignature | Method | MethodSignature | Function_ =>
      mret (_writeThrowsSection (_writeParameterTables output x) x)
  | Namespace => _writePackageOrNamespaceTables hier x members output
  | Model => _writeModelTable hier members output
  | EntryPoint =>
      mret (appendNodeInParagraph output (PlainText
        "TODO: Please reference the root entrypoint which contains links to elements from all entrypoints"))
  | Package => _writePackageOrNamespaceTables hier x members output
  | Property_ | PropertySignature | TypeAlias | Variable_ => mret output
  | k => mthrow ("Unsupported API item kind: " +:+ apiItemKindName k)
  end.

End Documenter.

Section Driver.

Variable env : Collaborators.
Variable options : IMarkdownDocumenterOptions.

(** [path.join(outputFolder, filename)]. *)
Definition pathJoin (folder file : string) : string := folder +:+ "/" +:+ file.

Definition newlineKindUsed : NewlineKind :=
  match _documenterConfig options with Some c => newlineKind c | None => CrLf end.

(** [_writeApiItemPage]: [anc] are the ancestors of the item of [t].
    [fuel] bounds the recursion depth ([generateFiles] passes more than the
    height of the tree, so it is never exhausted there). *)
Fixpoint _writeApiItemPage (fuel : nat) (anc : list ApiItem) (t : ApiTree) : M unit :=
  match fuel with
  | O => mthrow "recursion depth exhausted"
  | S fuel' =>
      let x := treeItem t in
      ofm <- frontMatterFor anc x ;;
      match ofm with
      | None => mret tt
      | Some frontMatter =>
          let output := writePrelude env x in
          let appendRemarks := negb (remarksFirst (kind x)) in
          let output := if appendRemarks then output else _writeRemarksSection output x in
          output <- writeKindContent env options (_writeApiItemPage fuel') anc x (treeMembers t) output ;;
          let output := if appendRemarks then _writeRemarksSection output x else output in
          let hier := anc ++ [x] in
          let filename := pathJoin (_outputFolder options) (_getFilenameForApiItem hier) in
          let pageContent := emitWithFrontMatter env frontMatter output hier in
          let pageContent := match markdownDocumenterFeature options with
                             | Some f => onBeforeWritePage f hier filename pageContent
                             | None => pageContent
                             end in
          perform (WriteFile (mkPage hier frontMatter output) filename
                             (convertTo (getNewline env newlineKindUsed) pageContent))
      end
  end.

Fixpoint treeHeight (t : ApiTree) : nat :=
  match t with Node _ cs => S (foldr max 0 (map treeHeight cs)) end.

Definition generateFiles : M unit :=
  perform (Log "") ;;;
  perform (Log ("Deleting old output from " +:+ _outputFolder options)) ;;;
  perform (EnsureEmptyFolder (_outputFolder options)) ;;;
  _writeApiItemPage (S (treeHeight (apiModel options))) [] (apiModel options) ;;;
  match markdownDocumenterFeature options with
  | Some _ => perform OnFinished
  | None => mret tt
  end.

End Driver.

(** The trace of a whole run. *)
Definition runTrace (env : Collaborators) (options : IMarkdownDocumenterOptions) : list Event :=
  snd (generateFiles env options []).

(** [HugoAction.onExecute] (and [MarkdownAction.onExecute]): the options
    the CLI action passes to the documenter. *)
Definition cliDocumenterOptions (model : ApiTree) (folder : string) : IMarkdownDocumenterOptions :=
  mkOptions model None folder.


(** The pages a trace writes. *)
Definition writtenPages (tr : list Event) : list Page :=
  flat_map (fun e => match e with WriteFile p _ _ => [p] | _ => [] end) tr.

(** Sample inputs. *)
Definition plainItem (k : ApiItemKind) (n : string) (ov : nat) : ApiItem :=
  mkItem k n ov RT_Public None [] "" None [] [] false false [] [].

Definition noCollaborators : Collaborators :=
  mkCollaborators (fun _ => None) (fun _ => mkFindResult [] false []) (fun _ _ _ => "") "".

Definition widgetsModel : ApiTree :=
  Node (plainItem Model "" 1)
    [Node (plainItem Package "@scope/widgets" 1)
      [Node (plainItem EntryPoint "" 1)
        [Node (plainItem Class_ "Widget" 1)
          [Node (plainItem Constructor "(constructor)" 1) [];
           Node (plainItem Constructor "(constructor)" 2) []]]]].

(** A function merged with a namespace of the same name. *)
Definition mergedModel : ApiTree :=
  Node (plainItem Model "" 1)
    [Node (plainItem Package "lib" 1)
      [Node (plainItem EntryPoint "" 1)
        [Node (plainItem Namespace "parse" 1) [];
         Node (plainItem Function_ "parse" 1) []]]].

Definition subpathModel : ApiTree :=
  Node (plainItem Model "" 1)
    [Node (plainItem Package "@s/pkg" 1)
      [Node (plainItem EntryPoint "" 1) [];
       Node (plainItem EntryPoint "sub" 1) []]].

(* ================================================================== *)
(** ** Auxiliary notions used in the statements *)

(** The base name the loop of [_getFilenameForApiItem] has built after
    the ancestors [anc] (none of which is the item itself). *)
Definition ancestorsPath (anc : list ApiItem) : string :=
  foldl (fun b h => filenameStep b h false) "" anc.

(** The kinds that contribute their [qualifiedName] as a segment. *)
Definition isSegmentKind (k : ApiItemKind) : bool :=
  match k with Model | EnumMember | EntryPoint | Package => false | _ => true end.

(** The suffix [_<n-1>] of an overloaded function-like item. *)
Definition overloadSuffix (i : nat) : string :=
  if Nat.ltb 1 i then "_" +:+ numberToString (i - 1) else "".

(** The part an entry point adds to the base name. *)
Definition entrySegment (e : ApiItem) : string :=
  if Nat.ltb 0 (String.length (displayName e))
  then "/" +:+ getSafeFilenameForName (getUnscopedName (displayName e))
  else "/_root".

(** A string without carriage returns or line feeds. *)
Definition noNewline (s : string) : bool :=
  forallb (fun c => negb (isNewlineChar c)) (String.list_ascii_of_string s).

(** The items of a package [@s/pkg] with the root entry point and the
    entry point [sub]. *)
Definition modelItem : ApiItem := plainItem Model "" 1.
Definition pkgItem : ApiItem := plainItem Package "@s/pkg" 1.
Definition rootEntry : ApiItem := plainItem EntryPoint "" 1.

(** The file names of the pages a run writes. *)
Definition writtenFilenames (env : Collaborators) (options : IMarkdownDocumenterOptions) : list string :=
  map (fun p => _getFilenameForApiItem (pageItem p)) (writtenPages (runTrace env options)).

(** The type-alias references, in the words of the spec: the tokens kept
    in order, each text once, at its first occurrence. *)
Fixpoint dedupByText (seen : list string) (ts : list ExcerptToken) : list ExcerptToken :=
  match ts with
  | [] => []
  | t :: rest =>
      if bool_decide (tokenText t ∈ seen) then dedupByText seen rest
      else t :: dedupByText (tokenText t :: seen) rest
  end.

(** Nodes separated by [", "]; [needsComma] when something precedes. *)
Fixpoint commaNodes (needsComma : bool) (ns : list DocNode) : list DocNode :=
  match ns with
  | [] => []
  | n :: rest => (if needsComma then [PlainText ", "; n] else [n]) ++ commaNodes true rest
  end.

Definition resolvedLink (env : Collaborators) (t : ExcerptToken) : string :=
  match canonicalReference t with
  | Some ref =>
      match resolveDeclarationReference env ref with
      | Some h => _getLinkFilenameForApiItem h
      | None => ""
      end
  | None => ""
  end.

(** The link node of a resolved reference token. *)
Definition refNode (env : Collaborators) (t : ExcerptToken) : DocNode :=
  LinkTag (replaceNewlineRuns false (tokenText t)) (resolvedLink env t).

(** A model where the reference ["w"] resolves to class [Widget]. *)
Definition widgetItem : ApiItem := plainItem Class_ "Widget" 1.

Definition widgetEnv : Collaborators :=
  mkCollaborators
    (fun r => if bool_decide (r = "w") then Some [modelItem; pkgItem; rootEntry; widgetItem] else None)
    (fun _ => mkFindResult [] false []) (fun _ _ _ => "") "".

(** [type Pair = [Widget, Widget | Missing]] *)
Definition aliasItem : ApiItem :=
  mkItem TypeAlias "Pair" 1 RT_Public None
    [mkToken ETK_Content "type Pair = [" None; mkToken ETK_Reference "Widget" (Some "w");
     mkToken ETK_Content ", " None; mkToken ETK_Reference "Widget" (Some "w");
     mkToken ETK_Content " | " None; mkToken ETK_Reference "Missing" (Some "m");
     mkToken ETK_Content "]" None]
    "" None [] [] false false [] [].

(** The headings that introduce a table. *)
Definition tableHeadings : list string :=
  ["Packages"; "Entrypoints"; "Classes"; "Abstract Classes"; "Enumerations"; "Functions";
   "Interfaces"; "Namespaces"; "Variables"; "Type Aliases"; "Events"; "Constructors";
   "Properties"; "Methods"; "Enumeration Members"; "Parameters"].

(** No table without rows, at any depth. *)
Fixpoint nodeWF (n : DocNode) : bool :=
  match n with
  | Table _ rows => match rows with [] => false | _ => true end
  | Paragraph ch | EmphasisSpan _ _ ch | NoteBox ch => forallb nodeWF ch
  | _ => true
  end.

(** A body where no table is empty and every table heading is directly
    followed by its (non-empty) table. *)
Fixpoint tablesWF (body : list DocNode) : bool :=
  match body with
  | [] => true
  | n :: rest =>
      nodeWF n && tablesWF rest &&
      match n with
      | Heading h =>
          if bool_decide (h ∈ tableHeadings)
          then match rest with Table _ (_ :: _) :: _ => true | _ => false end
          else true
      | _ => true
      end
  end.

(** A node that may stand anywhere in a well-formed body. *)
Definition safeNode (n : DocNode) : bool :=
  nodeWF n && match n with Heading h => negb (bool_decide (h ∈ tableHeadings)) | _ => true end.

(** The kinds the claim calls container-like. *)
Definition containerLikeKind (k : ApiItemKind) : bool :=
  match k with Class_ | Interface | Namespace | Package | Model => true | _ => false end.

(** Every carriage return is followed by a line feed and every line feed
    is preceded by a carriage return. *)
Fixpoint crlfOnly (s : string) : bool :=
  match s with
  | EmptyString => true
  | String c r =>
      if bool_decide (c = CR) then
        match r with
        | String c' r' => bool_decide (c' = LF) && crlfOnly r'
        | EmptyString => false
        end
      else if bool_decide (c = LF) then false
      else crlfOnly r
  end.

(** [m] keeps every event of the trace in [Q] (also when it throws). *)
Definition Preserves {A} (Q : Event -> Prop) (m : M A) : Prop :=
  forall tr, Forall Q tr -> Forall Q (snd (m tr)).

(** Every value [m] returns satisfies [P]. *)
Definition Post {A} (P : A -> Prop) (m : M A) : Prop :=
  forall tr a tr', m tr = (inr a, tr') -> P a.

(** [r] is [o] with a well-formed part appended. *)
Definition Ext (o r : list DocNode) : Prop := exists K, r = o ++ K /\ tablesWF K = true.

(** A written page: its body is the prelude, the kind-specific part [K]
    that [writeKindContent] appended to what had been built, and the
    Remarks either before [K] or after it. *)
Definition PageShape (env : Collaborators) (options : IMarkdownDocumenterOptions) (p : Page) : Prop :=
  exists anc x ms (w : list ApiItem -> ApiTree -> M unit) tr1 tr2 K,
    pageItem p = anc ++ [x] /\
    writeKindContent env options w anc x ms
      (if remarksFirst (kind x) then writePrelude env x ++ _writeRemarksSection [] x
       else writePrelude env x) tr1 =
      (inr ((if remarksFirst (kind x) then writePrelude env x ++ _writeRemarksSection [] x
             else writePrelude env x) ++ K), tr2) /\
    tablesWF K = true /\
    pageBody p = (if remarksFirst (kind x)
                  then (writePrelude env x ++ _writeRemarksSection [] x) ++ K
                  else writePrelude env x ++ K ++ _writeRemarksSection [] x).

Definition EvOK (env : Collaborators) (options : IMarkdownDocumenterOptions) (e : Event) : Prop :=
  match e with
  | WriteFile p _ c =>
      PageShape env options p /\ exists s, c = convertTo (getNewline env (newlineKindUsed options)) s
  | _ => True
  end.


(** Member kinds for which the class and the interface tables write a page. *)
Definition classMemberPageKind (k : ApiItemKind) : bool :=
  match k with Constructor | Method | Property_ => true | _ => false end.

Definition interfaceMemberPageKind (k : ApiItemKind) : bool :=
  match k with ConstructSignature | MethodSignature | PropertySignature => true | _ => false end.






(* ================================================================== *)
(** ** [CustomDocNodes.configuration] *)

(** The [DocNodeManager] of @microsoft/tsdoc, which is not part of this
    repository: its map from a kind to its registered definition (in
    insertion order), each with the package that registered it and its set
    of allowed child kinds. *)
Record DocNodeDefinition := mkDocNodeDefinition {
  docNodeKind : string;
  packageName : string;
  allowedChildKinds : list string;
}.

#[global] Instance DocNodeDefinition_eq_dec : EqDecision DocNodeDefinition.
Proof. solve_decision. Defined.

Definition DocNodeManager := list DocNodeDefinition.

Record TSDocConfiguration := mkTSDocConfiguration { docNodeManager : DocNodeManager }.

Definition isRegistered (k : string) (m : DocNodeManager) : bool :=
  existsb (fun d => bool_decide (docNodeKind d = k)) m.

(** [registerDocNodes]: each kind must be new, else it throws; the kinds
    before the offending one stay registered. *)
Fixpoint registerDocNodes (pkg : string) (kinds : list string) (m : DocNodeManager)
    : (string + unit) * DocNodeManager :=
  match kinds with
  | [] => (inr tt, m)
  | k :: ks =>
      if isRegistered k m then (inl ("The DocNode kind " +:+ k +:+ " was already registered"), m)
      else registerDocNodes pkg ks (m ++ [mkDocNodeDefinition k pkg []])
  end.

Definition addAllowedChild (parent child : string) (m : DocNodeManager) : DocNodeManager :=
  map (fun d => if bool_decide (docNodeKind d = parent) && negb (bool_decide (child ∈ allowedChildKinds d))
                then mkDocNodeDefinition (docNodeKind d) (packageName d) (allowedChildKinds d ++ [child])
                else d) m.

(** [registerAllowableChildren]: the parent and every child must be
    registered ([_getDefinition] throws otherwise); each child is added to
    the parent's set. *)
Fixpoint addAllowedChildren (parent : string) (children : list string) (m : DocNodeManager)
    : (string + unit) * DocNodeManager :=
  match children with
  | [] => (inr tt, m)
  | c :: cs =>
      if isRegistered c m then addAllowedChildren parent cs (addAllowedChild parent c m)
      else (inl ("The DocNode kind " +:+ c +:+ " was not registered"), m)
  end.

Definition registerAllowableChildren (parent : string) (children : list string) (m : DocNodeManager)
    : (string + unit) * DocNodeManager :=
  if isRegistered parent m then addAllowedChildren parent children m
  else (inl ("The DocNode kind " +:+ parent +:+ " was not registered"), m).

(** [new TSDocConfiguration()]: the built-in kinds of @microsoft/tsdoc
    registered, with the built-in children of sections and paragraphs. *)
Definition builtInKinds : list string :=
  ["Block"; "BlockTag"; "Excerpt"; "FencedCode"; "CodeSpan"; "Comment"; "DeclarationReference";
   "ErrorText"; "EscapedText"; "HtmlAttribute"; "HtmlEndTag"; "HtmlStartTag"; "InheritDocTag";
   "InlineTag"; "LinkTag"; "MemberIdentifier"; "MemberReference"; "MemberSelector"; "MemberSymbol";
   "Paragraph"; "ParamBlock"; "ParamCollection"; "PlainText"; "Section"; "SoftBreak"].

Definition builtInManager : DocNodeManager :=
  let m := snd (registerDocNodes "@microsoft/tsdoc" builtInKinds []) in
  let m := snd (registerAllowableChildren "Section" ["FencedCode"; "Paragraph"; "HtmlStartTag"; "HtmlEndTag"] m) in
  snd (registerAllowableChildren "Paragraph"
         ["BlockTag"; "CodeSpan"; "ErrorText"; "EscapedText"; "HtmlStartTag"; "HtmlEndTag";
          "InlineTag"; "LinkTag"; "PlainText"; "SoftBreak"] m).

(** The process: the static [CustomDocNodes._configuration] (a reference
    into the heap of configuration objects, undefined at first), that heap,
    and the number of [registerDocNodes] calls made so far. *)
Record Process := mkProcess {
  _configuration : option nat;
  configHeap : list TSDocConfiguration;
  registerDocNodesCalls : nat;
}.

Definition SM (A : Type) : Type := Process -> (string + A) * Process.

Definition smret {A} (a : A) : SM A := fun p => (inr a, p).
Definition smbind {A B} (m : SM A) (f : A -> SM B) : SM B :=
  fun p => match m p with
           | (inr a, p') => f a p'
           | (inl e, p') => (inl e, p')
           end.

Definition newTSDocConfiguration : SM nat :=
  fun p => (inr (length (configHeap p)),
            mkProcess (_configuration p) (configHeap p ++ [mkTSDocConfiguration builtInManager])
                      (registerDocNodesCalls p)).

(** A call on the [docNodeManager] of the object [i]; what it mutated
    before a throw stays mutated. *)
Definition withManager (i : nat) (f : DocNodeManager -> (string + unit) * DocNodeManager) : SM unit :=
  fun p => match configHeap p !! i with
           | None => (inl "undefined", p)
           | Some c =>
               let '(r, m') := f (docNodeManager c) in
               (r, mkProcess (_configuration p) (<[i := mkTSDocConfiguration m']> (configHeap p))
                             (registerDocNodesCalls p))
           end.

Definition countRegisterDocNodes : SM unit :=
  fun p => (inr tt, mkProcess (_configuration p) (configHeap p) (S (registerDocNodesCalls p))).

Definition setConfiguration (i : nat) : SM unit :=
  fun p => (inr tt, mkProcess (Some i) (configHeap p) (registerDocNodesCalls p)).

Definition customDocNodeKinds : list string :=
  ["EmphasisSpan"; "Heading"; "NoteBox"; "Table"; "TableCell"; "TableRow"].

Definition customPackage : string := "@micrososft/api-documenter".

(** The getter [CustomDocNodes.configuration]. *)
Definition configuration : SM nat :=
  fun p =>
    match _configuration p with
    | Some i => (inr i, p)
    | None =>
        (smbind newTSDocConfiguration (fun configuration =>
         smbind countRegisterDocNodes (fun _ =>
         smbind (withManager configuration (registerDocNodes customPackage customDocNodeKinds)) (fun _ =>
         smbind (withManager configuration
                   (registerAllowableChildren "EmphasisSpan" ["PlainText"; "SoftBreak"])) (fun _ =>
         smbind (withManager configuration
                   (registerAllowableChildren "Section" ["Heading"; "NoteBox"; "Table"])) (fun _ =>
         smbind (withManager configuration
                   (registerAllowableChildren "Paragraph" ["EmphasisSpan"])) (fun _ =>
         smbind (setConfiguration configuration) (fun _ =>
         fun p => match _configuration p with
                  | Some i => (inr i, p)
                  | None => (inl "undefined", p)
                  end)))))))) p
    end.

(** [n] successive reads of the getter. *)
Fixpoint accessN (n : nat) : SM (list nat) :=
  match n with
  | O => smret []
  | S n' => smbind configuration (fun i => smbind (accessN n') (fun is => smret (i :: is)))
  end.

Definition childrenOf (k : string) (m : DocNodeManager) : list string :=
  match find (fun d => bool_decide (docNodeKind d = k)) m with
  | Some d => allowedChildKinds d
  | None => []
  end.

(** The six custom kinds, each registered once by this package, and the
    widened children sets. *)
Definition customConfigured (m : DocNodeManager) : bool :=
  forallb (fun k => bool_decide (filter (fun d => docNodeKind d = k) m = [mkDocNodeDefinition k customPackage (childrenOf k m)]))
    customDocNodeKinds &&
  forallb (fun c => bool_decide (c ∈ childrenOf "EmphasisSpan" m)) ["PlainText"; "SoftBreak"] &&
  forallb (fun c => bool_decide (c ∈ childrenOf "Section" m)) ["Heading"; "NoteBox"; "Table"] &&
  bool_decide ("EmphasisSpan" ∈ childrenOf "Paragraph" m).

Definition initialProcess : Process := mkProcess None [] 0.

(* ================================================================== *)
(** ** Notions for the properties of a whole run *)


(** The kinds both [switch]es of [_writeApiItemPage] handle. *)
Definition supportedKind (k : ApiItemKind) : bool :=
  match k with CallSignature | EnumMember | IndexSignature => false | _ => true end.



(** What [_writeApiItemPage] writes to [filename] for the page [p]. *)
Definition pageContents (env : Collaborators) (options : IMarkdownDocumenterOptions)
    (p : Page) (filename : string) : string :=
  let pageContent := emitWithFrontMatter env (pageFrontMatter p) (pageBody p) (pageItem p) in
  convertTo (getNewline env (newlineKindUsed options))
    (match markdownDocumenterFeature options with
     | Some f => onBeforeWritePage f (pageItem p) filename pageContent
     | None => pageContent
     end).

(** The root entry point, for which no page is written. *)
Definition isRootEntryPoint (x : ApiItem) : bool :=
  bool_decide (kind x = EntryPoint) && bool_decide (displayName x = "").

(** The titles of the headings among [l], in order. *)
Definition headingTitles (l : list DocNode) : list string :=
  flat_map (fun n => match n with Heading t => [t] | _ => [] end) l.

(** The example headings for [n] example blocks. *)
Definition exampleHeadings (n : nat) : list string :=
  if Nat.ltb 1 n then map (fun i => "Example " +:+ numberToString i) (seq 1 n)
  else repeat "Example" n.

(** The text a plain-text or link node shows. *)
Definition nodeText (n : DocNode) : option string :=
  match n with PlainText s => Some s | LinkTag s _ => Some s | _ => None end.

(** The parts [ps] with [sep] between each two. *)
Fixpoint joinWith {A} (sep : list A) (ps : list (list A)) : list A :=
  match ps with
  | [] => []
  | [p] => p
  | p :: rest => p ++ sep ++ joinWith sep rest
  end.

(** [DocSection.appendNodesInParagraph]. *)
Definition appendNodesInParagraph (output : list DocNode) (nodes : list DocNode) : list DocNode :=
  foldl appendNodeInParagraph output nodes.

(** The loop of [_appendAndMergeSection] over [docSection.nodes]. *)
Fixpoint appendAndMergeLoop (output : list DocNode) (firstNode : bool) (nodes : list DocNode)
    : list DocNode :=
  match nodes with
  | [] => output
  | node :: rest =>
      if firstNode then
        match node with
        | Paragraph ch => appendAndMergeLoop (appendNodesInParagraph output ch) false rest
        | _ => appendAndMergeLoop (output ++ [node]) false rest
        end
      else appendAndMergeLoop (output ++ [node]) false rest
  end.

Definition _appendAndMergeSection (output : list DocNode) (docSection : list DocNode) : list DocNode :=
  appendAndMergeLoop output true docSection.

(** The nodes of [l] with the top-level paragraphs opened up. *)
Definition flattenParagraphs (l : list DocNode) : list DocNode :=
  flat_map (fun n => match n with Paragraph ch => ch | _ => [n] end) l.

(** [e] writes no page outside the part of the tree strictly below the
    hierarchy [h]. *)
Definition writesBelow (h : list ApiItem) (e : Event) : Prop :=
  match e with
  | WriteFile p _ _ => exists s, pageItem p = h ++ s /\ s <> []
  | _ => True
  end.

(* ================================================================== *)
(** ** Strings and paths *)

Lemma sapp_assoc (a b c : string) : (a +:+ b) +:+ c = a +:+ (b +:+ c).
Proof. induction a; simpl; congruence. Qed.

Lemma sapp_nil_r (a : string) : a +:+ "" = a.
Proof. induction a; simpl; congruence. Qed.

Lemma slength_app (a b : string) : String.length (a +:+ b) = String.length a + String.length b.
Proof. induction a; simpl; auto. Qed.

Lemma sapp_inj_l (a b c : string) : a +:+ b = a +:+ c -> b = c.
Proof. induction a; simpl; [auto | intros H; injection H; auto]. Qed.

Lemma sapp_inj_r (a b c : string) : a +:+ c = b +:+ c -> a = b.
Proof.
  revert b; induction a as [|x a IH]; intros [|y b] H; simpl in H; auto.
  - apply (f_equal String.length) in H. simpl in H; rewrite slength_app in H; lia.
  - apply (f_equal String.length) in H. simpl in H; rewrite slength_app in H; lia.
  - injection H as -> H. f_equal. auto.
Qed.

Lemma filenameLoop_snoc (b : string) (anc : list ApiItem) (x : ApiItem) :
  filenameLoop b (anc ++ [x]) = filenameStep (foldl (fun b h => filenameStep b h false) b anc) x true.
Proof.
  revert b; induction anc as [|a anc IH]; intros b; [reflexivity|].
  simpl; rewrite <- IH. destruct (anc ++ [x]) eqn:E; [destruct anc; discriminate|reflexivity].
Qed.

Lemma filename_segment (anc : list ApiItem) (x : ApiItem) :
  isSegmentKind (kind x) = true ->
  _getFilenameForApiItem (anc ++ [x]) = ancestorsPath anc +:+ "/" +:+ qualifiedName x +:+ "/_index.md".
Proof.
  intros Hk. unfold _getFilenameForApiItem. rewrite last_snoc.
  rewrite bool_decide_false; [|intros E; rewrite E in Hk; discriminate].
  rewrite filenameLoop_snoc; unfold filenameStep, ancestorsPath.
  destruct (kind x); try discriminate; rewrite !sapp_assoc; reflexivity.
Qed.

Lemma numberToString_inj (n m : nat) : numberToString n = numberToString m -> n = m.
Proof.
  unfold numberToString. intros H.
  apply (f_equal NilEmpty.uint_of_string) in H. rewrite !NilEmpty.usu in H.
  injection H as H. rewrite <- (Unsigned.of_to n), <- (Unsigned.of_to m), H. reflexivity.
Qed.

Lemma qualifiedName_parameterList (x : ApiItem) :
  isParameterListKind (kind x) = true ->
  qualifiedName x = getSafeFilenameForName (displayName x) +:+ overloadSuffix (overloadIndex x).
Proof.
  intros H. unfold qualifiedName, overloadSuffix. rewrite H; simpl.
  rewrite bool_decide_false; [|intros E; rewrite E in H; discriminate].
  destruct (Nat.ltb 1 (overloadIndex x)); [reflexivity|].
  by rewrite sapp_nil_r.
Qed.

Lemma overloadSuffix_inj (i j : nat) : 1 <= i -> 1 <= j -> overloadSuffix i = overloadSuffix j -> i = j.
Proof.
  unfold overloadSuffix. intros Hi Hj.
  destruct (Nat.ltb_spec 1 i) as [Li|Li], (Nat.ltb_spec 1 j) as [Lj|Lj]; simpl;
    intros Heq; try discriminate; try lia.
  injection Heq as Heq. apply numberToString_inj in Heq. lia.
Qed.

Lemma qualifiedName_variable (x : ApiItem) :
  kind x = Variable_ -> qualifiedName x = "var_" +:+ getSafeFilenameForName (displayName x).
Proof.
  intros H. unfold qualifiedName. rewrite H, bool_decide_true by reflexivity. reflexivity.
Qed.

Lemma qualifiedName_plain (x : ApiItem) :
  kind x <> Variable_ -> isParameterListKind (kind x) = false ->
  qualifiedName x = getSafeFilenameForName (displayName x).
Proof.
  intros H1 H2. unfold qualifiedName. rewrite H2, bool_decide_false by exact H1. reflexivity.
Qed.

Lemma filename_sibling_iff (anc : list ApiItem) (x y : ApiItem) :
  isSegmentKind (kind x) = true -> isSegmentKind (kind y) = true ->
  _getFilenameForApiItem (anc ++ [x]) = _getFilenameForApiItem (anc ++ [y]) <->
  qualifiedName x = qualifiedName y.
Proof.
  intros Hx Hy. rewrite !filename_segment by assumption. split.
  - intros H. apply sapp_inj_l, sapp_inj_l, sapp_inj_r in H. exact H.
  - intros ->. reflexivity.
Qed.

Lemma replaceNewlineRuns_noNewline (b : bool) (s : string) :
  noNewline (replaceNewlineRuns b s) = true.
Proof.
  revert b; induction s as [|c s IH]; intros b; [reflexivity|].
  simpl. destruct (isNewlineChar c) eqn:E.
  - destruct b; [apply IH|]. unfold noNewline in *; simpl. apply IH.
  - unfold noNewline in *; simpl. rewrite E; simpl. apply IH.
Qed.

Lemma replaceNewlineRuns_id (b : bool) (s : string) :
  noNewline s = true -> replaceNewlineRuns b s = s.
Proof.
  revert b; induction s as [|c s IH]; intros b; [reflexivity|].
  unfold noNewline; simpl. destruct (isNewlineChar c); simpl; [discriminate|].
  intros H. f_equal. apply IH, H.
Qed.

(* ================================================================== *)
(** ** Output paths (C1, C2, C3) *)

(** C1 (counterexample): the claim that no two written pages share a path
    fails for a function merged with a namespace of the same name: both
    pages are written, to the same file. *)
Lemma C1_merged_declarations_collide :
  exists p q,
    In p (writtenPages (runTrace noCollaborators (cliDocumenterOptions mergedModel "out"))) /\
    In q (writtenPages (runTrace noCollaborators (cliDocumenterOptions mergedModel "out"))) /\
    pageItem p <> pageItem q /\
    _getFilenameForApiItem (pageItem p) = _getFilenameForApiItem (pageItem q).
Proof.
  remember (writtenPages (runTrace noCollaborators (cliDocumenterOptions mergedModel "out"))) as ps eqn:E.
  vm_compute in E. subst ps.
  eexists; eexists; split; [left; reflexivity|]. split; [right; left; reflexivity|].
  split; [discriminate | reflexivity].
Qed.

(** C1 (amended): two siblings (same ancestors, kinds that add a segment)
    get the same path exactly when their qualified names agree.  So
    same-named siblings are kept apart by the overload suffix when both are
    function-like with different overload indices, and by the [var_] prefix
    when one is a variable and the other neither a variable nor
    function-like. *)
Theorem C1_sibling_paths (anc : list ApiItem) (x y : ApiItem) :
  isSegmentKind (kind x) = true -> isSegmentKind (kind y) = true ->
  (_getFilenameForApiItem (anc ++ [x]) = _getFilenameForApiItem (anc ++ [y]) <->
   qualifiedName x = qualifiedName y) /\
  (displayName x = displayName y ->
   isParameterListKind (kind x) = true -> isParameterListKind (kind y) = true ->
   1 <= overloadIndex x -> 1 <= overloadIndex y -> overloadIndex x <> overloadIndex y ->
   _getFilenameForApiItem (anc ++ [x]) <> _getFilenameForApiItem (anc ++ [y])) /\
  (displayName x = displayName y ->
   kind x = Variable_ -> kind y <> Variable_ -> isParameterListKind (kind y) = false ->
   _getFilenameForApiItem (anc ++ [x]) <> _getFilenameForApiItem (anc ++ [y])).
Proof.
  intros Hx Hy. split; [apply filename_sibling_iff; assumption|]. split.
  - intros Hn Px Py Ix Iy Ne Heq. apply filename_sibling_iff in Heq; [|assumption..].
    rewrite !qualifiedName_parameterList in Heq by assumption.
    rewrite Hn in Heq. apply sapp_inj_l, overloadSuffix_inj in Heq; auto.
  - intros Hn Vx Vy Py Heq. apply filename_sibling_iff in Heq; [|assumption..].
    rewrite qualifiedName_variable, qualifiedName_plain in Heq by assumption.
    rewrite Hn in Heq. apply (f_equal String.length) in Heq.
    rewrite slength_app in Heq. simpl in Heq. lia.
Qed.

Lemma C1_sibling_paths_witness :
  _getFilenameForApiItem ([] ++ [plainItem Function_ "f" 1]) <>
  _getFilenameForApiItem ([] ++ [plainItem Function_ "f" 2]).
Proof.
  apply (proj1 (proj2 (C1_sibling_paths [] (plainItem Function_ "f" 1) (plainItem Function_ "f" 2)
                         eq_refl eq_refl))); simpl; (reflexivity || lia).
Defined.

(** C2 (counterexample): the run on package [@scope/widgets] with the
    root entry point and class [Widget] does not write
    [widgets/Widget/_index.md]: the root entry point adds [/_root]. *)
Lemma C2_widgets_paths_have_root_segment :
  writtenFilenames noCollaborators (cliDocumenterOptions widgetsModel "out") =
    ["widgets/_root/Widget/_constructor_/_index.md";
     "widgets/_root/Widget/_constructor__1/_index.md";
     "widgets/_root/Widget/_index.md"; "widgets/_root/_index.md"; "_index.md"] /\
  ~ In "widgets/Widget/_index.md" (writtenFilenames noCollaborators (cliDocumenterOptions widgetsModel "out")).
Proof.
  assert (E : writtenFilenames noCollaborators (cliDocumenterOptions widgetsModel "out") =
    ["widgets/_root/Widget/_constructor_/_index.md";
     "widgets/_root/Widget/_constructor__1/_index.md";
     "widgets/_root/Widget/_index.md"; "widgets/_root/_index.md"; "_index.md"])
    by (vm_compute; reflexivity).
  split; [exact E|]. rewrite E. simpl. intros H. repeat destruct H as [H|H]; discriminate || contradiction.
Qed.

(** C2 (amended): the segment of a segment-adding item is its safe name,
    prefixed by [var_] for a variable and suffixed by [_<n-1>] for a
    function-like item of overload index [n > 1]; for the widgets package
    the pages are the ones below, all under the root entry point's
    [_root] segment (a constructor's display name is [(constructor)]). *)
Theorem C2_overload_suffix_var_prefix (anc : list ApiItem) (x : ApiItem) :
  isSegmentKind (kind x) = true ->
  _getFilenameForApiItem (anc ++ [x]) =
    ancestorsPath anc +:+ "/" +:+
    (if bool_decide (kind x = Variable_) then "var_" else "") +:+
    getSafeFilenameForName (displayName x) +:+
    (if isParameterListKind (kind x) then overloadSuffix (overloadIndex x) else "") +:+
    "/_index.md" /\
  writtenFilenames noCollaborators (cliDocumenterOptions widgetsModel "out") =
    ["widgets/_root/Widget/_constructor_/_index.md";
     "widgets/_root/Widget/_constructor__1/_index.md";
     "widgets/_root/Widget/_index.md"; "widgets/_root/_index.md"; "_index.md"].
Proof.
  intros Hx. split; [|vm_compute; reflexivity].
  rewrite filename_segment by exact Hx. unfold qualifiedName, overloadSuffix.
  destruct (bool_decide (kind x = Variable_)), (isParameterListKind (kind x)),
           (Nat.ltb 1 (overloadIndex x)); simpl; rewrite ?sapp_assoc, ?sapp_nil_r; reflexivity.
Qed.

Lemma C2_overload_suffix_var_prefix_witness :
  _getFilenameForApiItem ([] ++ [plainItem Constructor "(constructor)" 2]) =
    ancestorsPath [] +:+ "/" +:+ "" +:+ getSafeFilenameForName "(constructor)" +:+
    overloadSuffix 2 +:+ "/_index.md".
Proof.
  exact (proj1 (C2_overload_suffix_var_prefix [] (plainItem Constructor "(constructor)" 2) eq_refl)).
Defined.

(** The total [getUnscopedName] is the library's wherever that returns, so
    [_getFilenameForApiItem] is the source's wherever it does not throw. *)
Lemma PackageName_getUnscopedName_agrees (s u : string) :
  PackageName_getUnscopedName s = inr u -> getUnscopedName s = u.
Proof.
  unfold PackageName_getUnscopedName, PackageName_tryParse, getUnscopedName. intros H.
  destruct (Nat.ltb 214 _); [discriminate H|].
  destruct s as [|c r]; [discriminate H|]. cbv zeta in H.
  destruct (bool_decide (c = "@"%char)).
  - remember (afterFirstSlash (String c r)) as un. cbv beta iota in H.
    repeat (case_match; try discriminate H); congruence.
  - cbv beta iota in H. repeat (case_match; try discriminate H); congruence.
Qed.

Lemma filenameStepE_agrees (b : string) (h : ApiItem) (i : bool) :
  (forall s, filenameStepE b h i = inr s -> filenameStep b h i = s) /\
  (namesParse h -> filenameStepE b h i = inr (filenameStep b h i)).
Proof.
  unfold filenameStepE, filenameStep, namesParse. split.
  - intros s. destruct (kind h); try congruence.
    + destruct (Nat.ltb 0 _); [|congruence].
      destruct (PackageName_getUnscopedName _) eqn:E; [discriminate|].
      apply PackageName_getUnscopedName_agrees in E as ->. congruence.
    + destruct (PackageName_getUnscopedName _) eqn:E; [discriminate|].
      apply PackageName_getUnscopedName_agrees in E as ->. congruence.
  - destruct (kind h); try reflexivity.
    + intros Hn. destruct (Nat.ltb 0 (String.length (displayName h))) eqn:El; [|reflexivity].
      destruct Hn as [u Hu]; [intros E; rewrite E in El; discriminate|].
      rewrite Hu. apply PackageName_getUnscopedName_agrees in Hu as ->. reflexivity.
    + intros [u Hu]. rewrite Hu. apply PackageName_getUnscopedName_agrees in Hu as ->. reflexivity.
Qed.

Lemma filenameLoopE_agrees (hier : list ApiItem) : forall b,
  (forall s, filenameLoopE b hier = inr s -> filenameLoop b hier = s) /\
  (Forall namesParse hier -> filenameLoopE b hier = inr (filenameLoop b hier)).
Proof.
  induction hier as [|h [|h' rest] IH]; intros b.
  - split; [simpl; congruence | reflexivity].
  - split; [apply filenameStepE_agrees|]. intros Hf. inversion Hf; subst. apply filenameStepE_agrees. assumption.
  - change (filenameLoopE b (h :: h' :: rest)) with
      (match filenameStepE b h false with inl err => inl err | inr b' => filenameLoopE b' (h' :: rest) end).
    change (filenameLoop b (h :: h' :: rest)) with (filenameLoop (filenameStep b h false) (h' :: rest)).
    split.
    + intros s. destruct (filenameStepE b h false) as [err|b'] eqn:E; [discriminate|].
      rewrite (proj1 (filenameStepE_agrees b h false) b' E). apply IH.
    + intros Hf. inversion Hf as [|? ? Hh Hr]; subst.
      rewrite (proj2 (filenameStepE_agrees b h false) Hh). apply IH, Hr.
Qed.

Lemma getFilenameE_agrees (hier : list ApiItem) :
  (forall s, _getFilenameForApiItemE hier = inr s -> _getFilenameForApiItem hier = s) /\
  (Forall namesParse hier -> _getFilenameForApiItemE hier = inr (_getFilenameForApiItem hier)).
Proof.
  unfold _getFilenameForApiItemE, _getFilenameForApiItem.
  destruct (last hier) as [x|]; [|split; [congruence | reflexivity]].
  destruct (bool_decide (kind x = Model)); [split; [congruence | reflexivity]|].
  split.
  - intros s. destruct (filenameLoopE "" hier) as [err|b] eqn:E; [discriminate|].
    rewrite (proj1 (filenameLoopE_agrees hier "") b E). congruence.
  - intros Hf. rewrite (proj2 (filenameLoopE_agrees hier "") Hf). reflexivity.
Qed.




(* ================================================================== *)
(** ** Hyperlinks in excerpts (C4) *)

(** C4: a token that is not a reference resolving in the model (in
    particular a reference the model cannot resolve) is appended as plain
    text, its newline runs replaced by single spaces; a link is appended
    only for a reference whose canonical reference resolves, and it links
    to the resolved item.  The appended text has no newline characters and
    is the token text itself when that has none. *)
Theorem C4_unresolved_reference_plain (env : Collaborators) (container : list DocNode)
    (t : ExcerptToken) :
  (isResolvedReference env t = false ->
   _appendExcerptTokenWithHyperlinks env container t =
     container ++ [PlainText (replaceNewlineRuns false (tokenText t))]) /\
  (isResolvedReference env t = true ->
   exists ref h, tokenKind t = ETK_Reference /\ canonicalReference t = Some ref /\
     resolveDeclarationReference env ref = Some h /\
     _appendExcerptTokenWithHyperlinks env container t =
       container ++ [LinkTag (replaceNewlineRuns false (tokenText t)) (_getLinkFilenameForApiItem h)]) /\
  noNewline (replaceNewlineRuns false (tokenText t)) = true /\
  (noNewline (tokenText t) = true -> replaceNewlineRuns false (tokenText t) = tokenText t).
Proof.
  split; [|split; [|split]].
  - unfold isResolvedReference, _appendExcerptTokenWithHyperlinks. case_bool_decide; [|reflexivity].
    simpl. destruct (canonicalReference t) as [ref|]; [|reflexivity].
    destruct (resolveDeclarationReference env ref); [discriminate|reflexivity].
  - unfold isResolvedReference, _appendExcerptTokenWithHyperlinks. case_bool_decide; [|discriminate].
    simpl. destruct (canonicalReference t) as [ref|]; [|discriminate].
    destruct (resolveDeclarationReference env ref) as [h|] eqn:E; [|discriminate].
    intros _. exists ref, h. auto.
  - apply replaceNewlineRuns_noNewline.
  - apply replaceNewlineRuns_id.
Qed.

Lemma C4_unresolved_reference_plain_witness :
  _appendExcerptTokenWithHyperlinks noCollaborators [] (mkToken ETK_Reference "Foo" (Some "x")) =
    [] ++ [PlainText (replaceNewlineRuns false (tokenText (mkToken ETK_Reference "Foo" (Some "x"))))].
Proof.
  exact (proj1 (C4_unresolved_reference_plain noCollaborators [] (mkToken ETK_Reference "Foo" (Some "x")))
           eq_refl).
Defined.

(* ================================================================== *)
(** ** Type alias references (C6) *)

Lemma appendToken_resolved (env : Collaborators) (p : list DocNode) (t : ExcerptToken) :
  isResolvedReference env t = true ->
  _appendExcerptTokenWithHyperlinks env p t = p ++ [refNode env t].
Proof.
  unfold isResolvedReference, _appendExcerptTokenWithHyperlinks, refNode, resolvedLink.
  case_bool_decide; [|discriminate]. simpl.
  destruct (canonicalReference t) as [ref|]; [|discriminate].
  destruct (resolveDeclarationReference env ref); [reflexivity|discriminate].
Qed.

Lemma referencesLoop_dedup (env : Collaborators) (refs : list ExcerptToken) :
  Forall (fun t => isResolvedReference env t = true) refs ->
  forall p nc (V : gset string) (seen : list string),
  (forall s, s ∈ V <-> s ∈ seen) ->
  referencesLoop env p nc V refs = p ++ commaNodes nc (map (refNode env) (dedupByText seen refs)).
Proof.
  induction refs as [|t rest IH]; intros Hres p nc V seen HV; simpl.
  - by rewrite app_nil_r.
  - inversion Hres as [|? ? Ht Hrest]; subst.
    destruct (bool_decide (tokenText t ∈ V)) eqn:E1, (bool_decide (tokenText t ∈ seen)) eqn:E2.
    + apply IH; assumption.
    + apply bool_decide_eq_true in E1. apply bool_decide_eq_false in E2. exfalso. apply E2, HV, E1.
    + apply bool_decide_eq_false in E1. apply bool_decide_eq_true in E2. exfalso. apply E1, HV, E2.
    + rewrite appendToken_resolved by exact Ht.
      rewrite (IH Hrest _ true _ (tokenText t :: seen)).
      * destruct nc; simpl; rewrite <- !app_assoc; reflexivity.
      * intros s. rewrite elem_of_union, elem_of_singleton, elem_of_cons, HV. tauto.
Qed.

Lemma elem_of_map_iff {A B} (f : A -> B) (l : list A) (y : B) :
  y ∈ map f l <-> exists x, y = f x /\ x ∈ l.
Proof.
  rewrite list_elem_of_In, in_map_iff. split.
  - intros (x & <- & H). exists x. split; [reflexivity|]. apply list_elem_of_In, H.
  - intros (x & -> & H). exists x. split; [reflexivity|]. apply list_elem_of_In, H.
Qed.

Lemma dedupByText_nodup (ts : list ExcerptToken) : forall seen,
  NoDup (map tokenText (dedupByText seen ts)) /\
  (forall t, t ∈ dedupByText seen ts -> tokenText t ∉ seen).
Proof.
  induction ts as [|u rest IH]; intros seen; simpl.
  - split; [constructor | intros t Ht; inversion Ht].
  - case_bool_decide as Hu; [apply IH|].
    destruct (IH (tokenText u :: seen)) as [N F]. split.
    + simpl. constructor; [|exact N].
      intros Hin. apply elem_of_map_iff in Hin as [t [Et Ht]].
      apply F in Ht. apply Ht. rewrite Et. left.
    + intros t Ht. apply elem_of_cons in Ht as [->|Ht]; [exact Hu|].
      apply F in Ht. intros Hs. apply Ht. right. exact Hs.
Qed.

Lemma dedupByText_sublist (ts : list ExcerptToken) : forall seen,
  sublist (dedupByText seen ts) ts.
Proof.
  induction ts as [|u rest IH]; intros seen; simpl; [constructor|].
  case_bool_decide; [apply sublist_cons, IH | apply sublist_skip, IH].
Qed.

Lemma dedupByText_first (ts : list ExcerptToken) : forall seen t,
  t ∈ dedupByText seen ts ->
  exists pre post, ts = pre ++ t :: post /\ (tokenText t ∉ map tokenText pre) /\ tokenText t ∉ seen.
Proof.
  induction ts as [|u rest IH]; intros seen t; simpl; [intros H; inversion H|].
  case_bool_decide as Hu.
  - intros Ht. destruct (IH seen t Ht) as (pre & post & E & N & S).
    exists (u :: pre), post. subst rest. split; [reflexivity|]. split; [|exact S].
    simpl. intros Hin. apply elem_of_cons in Hin as [Eq|Hin]; [|exact (N Hin)].
    apply S. rewrite Eq. exact Hu.
  - intros Ht. apply elem_of_cons in Ht as [->|Ht].
    + exists [], rest. split; [reflexivity|]. split; [intros H; inversion H | exact Hu].
    + destruct (IH _ t Ht) as (pre & post & E & N & S).
      exists (u :: pre), post. subst rest. split; [reflexivity|]. split.
      * simpl. intros Hin. apply elem_of_cons in Hin as [Eq|Hin]; [|exact (N Hin)].
        apply S. rewrite Eq. left.
      * intros Hs. apply S. right. exact Hs.
Qed.

Lemma dedupByText_covers (ts : list ExcerptToken) : forall seen t,
  t ∈ ts -> tokenText t ∈ seen \/ tokenText t ∈ map tokenText (dedupByText seen ts).
Proof.
  induction ts as [|u rest IH]; intros seen t; [intros H; inversion H|].
  intros Ht. simpl. apply elem_of_cons in Ht as [->|Ht].
  - case_bool_decide as Hu; [left; exact Hu | right; left].
  - case_bool_decide as Hu; [apply IH, Ht|].
    destruct (IH (tokenText u :: seen) t Ht) as [Hs|Hs].
    + apply elem_of_cons in Hs as [Eq|Hs]; [right; rewrite Eq; left | left; exact Hs].
    + right. right. exact Hs.
Qed.

Lemma isResolvedReference_spec (env : Collaborators) (t : ExcerptToken) :
  isResolvedReference env t = true <->
  tokenKind t = ETK_Reference /\
  exists ref h, canonicalReference t = Some ref /\ resolveDeclarationReference env ref = Some h.
Proof.
  unfold isResolvedReference. case_bool_decide as Hk; simpl.
  - destruct (canonicalReference t) as [ref|].
    + destruct (resolveDeclarationReference env ref) as [h|] eqn:E.
      * split; [intros _; split; [exact Hk | exists ref, h; auto] | reflexivity].
      * split; [discriminate|]. intros (_ & r & h & Er & Eh). injection Er as <-. congruence.
    + split; [discriminate|]. intros (_ & r & h & Er & _). discriminate.
  - split; [discriminate|]. intros [Hk' _]. contradiction.
Qed.

(** C6: on a type alias's page, the "References:" paragraph is absent when
    no reference token of its excerpt resolves, and otherwise lists, comma
    separated, one link per distinct token text, in the order of first
    occurrence among the resolving reference tokens, each linking to the
    item its canonical reference resolves to. *)
Theorem C6_type_alias_references (env : Collaborators) (output : list DocNode) (x : ApiItem) :
  kind x = TypeAlias ->
  let refs := typeAliasRefs env x in
  let L := dedupByText [] refs in
  ((refs = [] /\ _writeHeritageTypes env output x = output) \/
   (refs <> [] /\ _writeHeritageTypes env output x =
      output ++ [Paragraph (boldLabel "References: " :: commaNodes false (map (refNode env) L))])) /\
  NoDup (map tokenText L) /\
  sublist L refs /\
  (forall t, t ∈ L -> exists pre post, refs = pre ++ t :: post /\ (tokenText t ∉ map tokenText pre)) /\
  (forall t, t ∈ refs -> tokenText t ∈ map tokenText L) /\
  (forall t, t ∈ refs <->
     t ∈ excerptTokens x /\ tokenKind t = ETK_Reference /\
     exists ref h, canonicalReference t = Some ref /\ resolveDeclarationReference env ref = Some h) /\
  (forall t, t ∈ L -> exists ref h,
     canonicalReference t = Some ref /\ resolveDeclarationReference env ref = Some h /\
     refNode env t = LinkTag (replaceNewlineRuns false (tokenText t)) (_getLinkFilenameForApiItem h)).
Proof.
  intros Hk refs L.
  assert (Hall : Forall (fun t => isResolvedReference env t = true) refs).
  { apply Forall_forall. intros t Ht.
    unfold refs, typeAliasRefs in Ht. apply list_elem_of_filter in Ht. apply Ht. }
  split; [|split; [|split; [|split; [|split; [|split]]]]].
  - unfold _writeHeritageTypes. rewrite Hk.
    rewrite (bool_decide_false (TypeAlias = Class_)), (bool_decide_false (TypeAlias = Interface)),
            bool_decide_true by (reflexivity || discriminate).
    fold refs. destruct refs as [|r rs] eqn:Er; [left; split; reflexivity|].
    right. split; [discriminate|].
    rewrite (referencesLoop_dedup env (r :: rs) Hall [boldLabel "References: "] false ∅ []).
    + reflexivity.
    + intros s. split; intros H; inversion H.
  - apply dedupByText_nodup.
  - apply dedupByText_sublist.
  - intros t Ht. destruct (dedupByText_first refs [] t Ht) as (pre & post & E & N & _). eauto.
  - intros t Ht. destruct (dedupByText_covers refs [] t Ht) as [H|H]; [inversion H | exact H].
  - intros t. unfold refs, typeAliasRefs. rewrite list_elem_of_filter, isResolvedReference_spec. tauto.
  - intros t Ht.
    pose proof (elem_of_submseteq L refs t Ht (sublist_submseteq _ _ (dedupByText_sublist refs []))) as Ht'.
    rewrite Forall_forall in Hall.
    pose proof (Hall t Ht') as Hr. apply isResolvedReference_spec in Hr as (_ & ref & h & Er & Eh).
    exists ref, h. split; [exact Er|]. split; [exact Eh|].
    unfold refNode, resolvedLink. rewrite Er, Eh. reflexivity.
Qed.

Lemma C6_type_alias_references_witness :
  _writeHeritageTypes widgetEnv [] aliasItem =
    [] ++ [Paragraph (boldLabel "References: " ::
             commaNodes false (map (refNode widgetEnv) (dedupByText [] (typeAliasRefs widgetEnv aliasItem))))].
Proof.
  destruct (proj1 (C6_type_alias_references widgetEnv [] aliasItem eq_refl)) as [[H _]|[_ H]].
  - vm_compute in H. discriminate H.
  - exact H.
Defined.

(* ================================================================== *)
(** ** Well-formed bodies *)

Lemma tablesWF_app (a b : list DocNode) :
  tablesWF a = true -> tablesWF b = true -> tablesWF (a ++ b) = true.
Proof.
  induction a as [|n a IH]; simpl; [auto|]. intros Ha Hb.
  apply andb_prop in Ha as [Ha Hm]. apply andb_prop in Ha as [Hn Ha].
  rewrite Hn, IH by assumption. simpl. revert Hm.
  destruct n; try reflexivity. destruct (bool_decide _); [|reflexivity].
  destruct a; [discriminate|]. simpl. auto.
Qed.

Lemma tablesWF_safe (l : list DocNode) : forallb safeNode l = true -> tablesWF l = true.
Proof.
  induction l as [|n l IH]; simpl; [auto|]. unfold safeNode.
  intros H. apply andb_prop in H as [H Hl]. apply andb_prop in H as [Hn Hh].
  rewrite Hn, IH by assumption. simpl. destruct n; try reflexivity.
  destruct (bool_decide _); [discriminate | reflexivity].
Qed.

Lemma safe_app (a b : list DocNode) :
  forallb safeNode a = true -> forallb safeNode b = true -> forallb safeNode (a ++ b) = true.
Proof. intros Ha Hb. rewrite forallb_app, Ha, Hb. reflexivity. Qed.

Lemma nodeWF_app (a b : list DocNode) :
  forallb nodeWF a = true -> forallb nodeWF b = true -> forallb nodeWF (a ++ b) = true.
Proof. intros Ha Hb. rewrite forallb_app, Ha, Hb. reflexivity. Qed.

Lemma safe_tsdoc (s : list string) : forallb safeNode (map TsdocNode s) = true.
Proof. induction s; simpl; auto. Qed.

Lemma nodeWF_tsdoc (s : list string) : forallb nodeWF (map TsdocNode s) = true.
Proof. induction s; simpl; auto. Qed.

Lemma safe_appendSection (o : list DocNode) (s : list string) :
  forallb safeNode o = true -> forallb safeNode (_appendSection o s) = true.
Proof. intros H. apply safe_app; [exact H | apply safe_tsdoc]. Qed.

Lemma safe_foldl_sections (o : list DocNode) (bs : list DocBlock) :
  forallb safeNode o = true ->
  forallb safeNode (foldl (fun o b => _appendSection o (blockContent b)) o bs) = true.
Proof.
  revert o; induction bs as [|b bs IH]; intros o H; simpl; [exact H|].
  apply IH, safe_appendSection, H.
Qed.

Lemma nodeWF_appendToken (env : Collaborators) (c : list DocNode) (t : ExcerptToken) :
  forallb nodeWF c = true -> forallb nodeWF (_appendExcerptTokenWithHyperlinks env c t) = true.
Proof.
  intros H. unfold _appendExcerptTokenWithHyperlinks.
  destruct (bool_decide _); [destruct (canonicalReference t) as [ref|];
    [destruct (resolveDeclarationReference env ref)|]|];
  apply nodeWF_app; auto.
Qed.

Lemma nodeWF_appendExcerpt (env : Collaborators) (e : Excerpt) : forall c,
  forallb nodeWF c = true -> forallb nodeWF (_appendExcerptWithHyperlinks env c e) = true.
Proof.
  unfold _appendExcerptWithHyperlinks.
  induction e as [|t e IH]; intros c H; simpl; [exact H|]. apply IH, nodeWF_appendToken, H.
Qed.

Lemma nodeWF_commaSeparated (env : Collaborators) (es : list Excerpt) : forall p nc,
  forallb nodeWF p = true -> forallb nodeWF (appendCommaSeparated env p nc es) = true.
Proof.
  induction es as [|e es IH]; intros p nc H; simpl; [exact H|].
  apply IH, nodeWF_appendExcerpt. destruct nc; [apply nodeWF_app; auto | exact H].
Qed.

Lemma nodeWF_referencesLoop (env : Collaborators) (refs : list ExcerptToken) : forall p nc V,
  forallb nodeWF p = true -> forallb nodeWF (referencesLoop env p nc V refs) = true.
Proof.
  induction refs as [|t refs IH]; intros p nc V H; simpl; [exact H|].
  destruct (bool_decide _); [apply IH, H|].
  apply IH, nodeWF_appendToken. destruct nc; [apply nodeWF_app; auto | exact H].
Qed.

Lemma safe_paragraph (l : list DocNode) :
  forallb nodeWF l = true -> forallb safeNode [Paragraph l] = true.
Proof. intros H. unfold safeNode. simpl. rewrite H. reflexivity. Qed.

Lemma safe_heritage (env : Collaborators) (o : list DocNode) (x : ApiItem) :
  forallb safeNode o = true -> forallb safeNode (_writeHeritageTypes env o x) = true.
Proof.
  intros H. unfold _writeHeritageTypes.
  destruct (bool_decide (kind x = TypeAlias)); [destruct (typeAliasRefs env x)|];
  (destruct (bool_decide (kind x = Interface)); [destruct (extendsTypes x)|]);
  (destruct (bool_decide (kind x = Class_)); [destruct (extendsType x); destruct (implementsTypes x)|]);
  repeat first
    [ assumption
    | apply safe_app
    | apply safe_paragraph
    | apply nodeWF_referencesLoop
    | apply nodeWF_commaSeparated
    | apply nodeWF_appendExcerpt
    | reflexivity ].
Qed.

Lemma writePrelude_safe (env : Collaborators) (x : ApiItem) :
  forallb safeNode (writePrelude env x) = true.
Proof.
  unfold writePrelude. cbv zeta.
  destruct (tsdocComment x) as [c|]; [destruct (deprecatedBlock c)|];
  (destruct (isReleaseTagKind (kind x)); [destruct (releaseTag x)|]);
  (destruct (isDeclaredKind (kind x)); [destruct (Nat.ltb 0 _)|]);
  try destruct (blocksTagged "@DECORATOR" c);
  repeat first
    [ apply safe_foldl_sections
    | apply safe_heritage
    | apply safe_appendSection
    | apply safe_app
    | reflexivity
    | (unfold safeNode; simpl; rewrite nodeWF_tsdoc; reflexivity) ].
Qed.

Lemma example_heading_not_table (s : string) : ("Example " +:+ s) ∉ tableHeadings.
Proof.
  unfold tableHeadings. intros H.
  repeat (apply elem_of_cons in H as [H|H]; [simpl in H; discriminate|]).
  inversion H.
Qed.

Lemma safeNode_heading (h : string) :
  safeNode (Heading h) = negb (bool_decide (h ∈ tableHeadings)).
Proof. reflexivity. Qed.

Lemma exampleLoop_safe (bs : list DocBlock) : forall o n total,
  forallb safeNode o = true -> forallb safeNode (exampleLoop o n total bs) = true.
Proof.
  induction bs as [|b bs IH]; intros o n total H; simpl; [exact H|].
  apply IH, safe_appendSection, safe_app; [exact H|].
  destruct (Nat.ltb 1 total); [|reflexivity]. cbn [forallb].
  rewrite safeNode_heading, bool_decide_false by apply example_heading_not_table. reflexivity.
Qed.

Lemma remarks_safe (o : list DocNode) (x : ApiItem) :
  forallb safeNode o = true -> forallb safeNode (_writeRemarksSection o x) = true.
Proof.
  intros H. unfold _writeRemarksSection.
  destruct (tsdocComment x) as [c|]; [|exact H].
  apply exampleLoop_safe. destruct (remarksBlock c); [|exact H].
  apply safe_appendSection, safe_app; [exact H | reflexivity].
Qed.

Lemma throws_safe (o : list DocNode) (x : ApiItem) :
  forallb safeNode o = true -> forallb safeNode (_writeThrowsSection o x) = true.
Proof.
  intros H. unfold _writeThrowsSection.
  destruct (tsdocComment x) as [c|]; [|exact H].
  destruct (blocksTagged "@THROWS" c); [exact H|].
  apply safe_foldl_sections, safe_app; [exact H | reflexivity].
Qed.

Lemma appendTableSection_wf (o : list DocNode) (t : string) (h : list string) (rows : list DocTableRow) :
  tablesWF o = true -> tablesWF (appendTableSection o t h rows) = true.
Proof.
  intros H. unfold appendTableSection. destruct rows as [|r rows]; [exact H|].
  apply tablesWF_app; [exact H|]. simpl. destruct (bool_decide _); reflexivity.
Qed.

Lemma ext_refl (o : list DocNode) : Ext o o.
Proof. exists []. rewrite app_nil_r. auto. Qed.

Lemma ext_app (o r a : list DocNode) : Ext o r -> tablesWF a = true -> Ext o (r ++ a).
Proof.
  intros (K & -> & HK) Ha. exists (K ++ a). rewrite app_assoc. split; [reflexivity|].
  apply tablesWF_app; assumption.
Qed.

Lemma ext_table (o r : list DocNode) t h rows : Ext o r -> Ext o (appendTableSection r t h rows).
Proof.
  intros HK. unfold appendTableSection. destruct rows as [|row rows]; [exact HK|].
  apply ext_app; [exact HK|]. simpl. destruct (bool_decide _); reflexivity.
Qed.

Lemma ext_safe (o r a : list DocNode) : Ext o r -> forallb safeNode a = true -> Ext o (r ++ a).
Proof. intros HK Ha. apply ext_app, tablesWF_safe; assumption. Qed.

Lemma ext_section (o r : list DocNode) s : Ext o r -> Ext o (_appendSection r s).
Proof. intros HK. apply ext_safe; [exact HK | apply safe_tsdoc]. Qed.

Lemma ext_throws (o r : list DocNode) x : Ext o r -> Ext o (_writeThrowsSection r x).
Proof.
  intros HK. unfold _writeThrowsSection.
  destruct (tsdocComment x) as [c|]; [|exact HK].
  destruct (blocksTagged "@THROWS" c) as [|b bs]; [exact HK|].
  assert (G : forall bs r', Ext o r' -> Ext o (foldl (fun o b => _appendSection o (blockContent b)) r' bs)).
  { induction bs0 as [|b' bs' IH]; intros r' H'; [exact H'|]. apply IH, ext_section, H'. }
  apply G, ext_safe; [exact HK | reflexivity].
Qed.

Lemma ext_params (env : Collaborators) (o r : list DocNode) x : Ext o r -> Ext o (_writeParameterTables env r x).
Proof.
  intros HK. unfold _writeParameterTables. cbv zeta.
  pose proof (ext_table o r "Parameters" ["Parameter"; "Type"; "Description"]
               (map (fun p => [ParameterNameCell p; ParameterTypeCell p; ParameterDescriptionCell p])
                    (parameters x)) HK) as H1.
  destruct (isReturnTypeKind (kind x)); [|exact H1].
  assert (H2 : Ext o (appendTableSection r "Parameters" ["Parameter"; "Type"; "Description"]
               (map (fun p => [ParameterNameCell p; ParameterTypeCell p; ParameterDescriptionCell p])
                    (parameters x)) ++
             [Paragraph []; Paragraph [boldLabel "Returns:"];
              _createParagraphForTypeExcerpt env (returnTypeExcerpt x)])).
  { apply ext_safe; [exact H1|]. unfold _createParagraphForTypeExcerpt.
    destruct (trimIsEmpty _); [reflexivity|].
    apply (safe_app [Paragraph []; Paragraph [boldLabel "Returns:"]]); [reflexivity|].
    apply safe_paragraph, nodeWF_appendExcerpt. reflexivity. }
  destruct (tsdocComment x) as [c|]; [|exact H2].
  destruct (returnsBlock c); [apply ext_section|]; exact H2.
Qed.

(* ================================================================== *)
(** ** Running the page builder *)

Lemma post_ret {A} (P : A -> Prop) (a : A) : P a -> Post P (mret a).
Proof. intros H tr b tr' E. injection E as <- _. exact H. Qed.

Lemma post_throw {A} (P : A -> Prop) (s : string) : Post P (mthrow s).
Proof. intros tr b tr' E. discriminate. Qed.

Lemma post_bind {A B} (P : A -> Prop) (Q : B -> Prop) (m : M A) (f : A -> M B) :
  Post P m -> (forall a, P a -> Post Q (f a)) -> Post Q (mbind m f).
Proof.
  intros Hm Hf tr b tr' E. unfold mbind in E.
  destruct (m tr) as [[e|a] tr1] eqn:E1; [discriminate|].
  exact (Hf a (Hm tr a tr1 E1) tr1 b tr' E).
Qed.

Lemma post_bind_any {A B} (Q : B -> Prop) (m : M A) (f : A -> M B) :
  (forall a, Post Q (f a)) -> Post Q (mbind m f).
Proof. intros Hf. apply (post_bind (fun _ => True)); [intros ? ? ? ?; exact I | auto]. Qed.

Lemma pres_ret {A} Q (a : A) : Preserves Q (mret a).
Proof. intros tr H. exact H. Qed.

Lemma pres_throw {A} Q (s : string) : Preserves Q (@mthrow A s).
Proof. intros tr H. exact H. Qed.

Lemma pres_perform Q (e : Event) : Q e -> Preserves Q (perform e).
Proof. intros He tr H. simpl. apply Forall_app; split; [exact H | constructor; [exact He | constructor]]. Qed.

Lemma pres_bind {A B} Q (m : M A) (f : A -> M B) :
  Preserves Q m -> (forall a, Preserves Q (f a)) -> Preserves Q (mbind m f).
Proof.
  intros Hm Hf tr H. unfold mbind. pose proof (Hm tr H) as H1.
  destruct (m tr) as [[e|a] tr1]; [exact H1 | exact (Hf a tr1 H1)].
Qed.

Lemma pres_mfold {A B} Q (f : A -> B -> M A) (l : list B) :
  (forall a b, Preserves Q (f a b)) -> forall a, Preserves Q (mfold f a l).
Proof.
  intros Hf. induction l as [|b l IH]; intros a; simpl; [apply pres_ret|].
  apply pres_bind; [apply Hf | exact IH].
Qed.

Ltac pres_tac :=
  repeat match goal with
  | |- Preserves _ (mbind _ _) => apply pres_bind; intros
  | |- Preserves _ (mfold _ _ _) => apply pres_mfold; intros
  | |- Preserves _ (mret _) => apply pres_ret
  | |- Preserves _ (mthrow _) => apply pres_throw
  | H : forall l, ?Q (Log l) |- Preserves ?Q (perform (Log _)) => apply pres_perform, H
  | H : forall a t, Preserves _ (?w a t) |- Preserves _ (?w _ _) => apply H
  | |- Preserves _ (if ?b then _ else _) => destruct b
  | |- Preserves _ (match ?x with _ => _ end) => destruct x
  | |- Preserves _ ((fun _ => _) _) => cbv beta
  | |- Preserves _ ((fun _ _ => _) _ _) => cbv beta
  end.

Section Run.

Variable env : Collaborators.
Variable options : IMarkdownDocumenterOptions.

Lemma frontMatterFor_pres Q anc x :
  (forall l, Q (Log l)) -> Preserves Q (frontMatterFor anc x).
Proof. intros HL. unfold frontMatterFor. cbv zeta. destruct (kind x); pres_tac. Qed.

Lemma writeKindContent_pres Q (w : list ApiItem -> ApiTree -> M unit) anc x ms o :
  (forall l, Q (Log l)) -> (forall a t, Preserves Q (w a t)) ->
  Preserves Q (writeKindContent env options w anc x ms o).
Proof.
  intros HL Hw. unfold writeKindContent, _writeClassTables, _writeInterfaceTables, _writeModelTable,
    _writePackageOrNamespaceTables, _getMembersAndWriteIncompleteWarning. cbv zeta.
  destruct (kind x); pres_tac.
Qed.

Lemma getMembers_ext hier ms o :
  Post (fun r => Ext o (snd r)) (_getMembersAndWriteIncompleteWarning env options hier ms o).
Proof.
  unfold _getMembersAndWriteIncompleteWarning. cbv zeta.
  destruct (negb _); [apply post_ret, ext_refl|].
  apply post_bind_any. intros _. apply post_ret. simpl.
  destruct (maybeIncompleteResult _); [apply ext_safe; [apply ext_refl | reflexivity] | apply ext_refl].
Qed.

Lemma writeKindContent_ext (w : list ApiItem -> ApiTree -> M unit) anc x ms o :
  (kind x = EntryPoint -> o = []) ->
  Post (Ext o) (writeKindContent env options w anc x ms o).
Proof.
  intros Hep. unfold writeKindContent. cbv zeta. destruct (kind x) eqn:Ek.
  all: try (apply post_throw).
  all: try (apply post_ret; apply ext_refl).
  all: try (apply post_ret; apply ext_throws, ext_params, ext_refl).
  - (* class *)
    unfold _writeClassTables. apply (post_bind _ _ _ _ (getMembers_ext _ _ _)).
    intros [am out] Hout. simpl in Hout. apply post_bind_any. intros added.
    apply post_ret. repeat apply ext_table. exact Hout.
  - (* entry point *)
    rewrite (Hep eq_refl). apply post_ret. exists [Paragraph [PlainText
      "TODO: Please reference the root entrypoint which contains links to elements from all entrypoints"]].
    split; reflexivity.
  - (* enum *)
    apply post_ret. unfold _writeEnumTables. apply ext_table, ext_refl.
  - (* interface *)
    unfold _writeInterfaceTables. apply (post_bind _ _ _ _ (getMembers_ext _ _ _)).
    intros [am out] Hout. simpl in Hout. apply post_bind_any. intros added.
    apply post_ret. repeat apply ext_table. exact Hout.
  - (* model *)
    unfold _writeModelTable. apply post_bind_any. intros rows. apply post_ret, ext_table, ext_refl.
  - (* namespace *)
    unfold _writePackageOrNamespaceTables. apply (post_bind (Ext o)).
    + destruct (bool_decide _); [|apply post_ret, ext_refl].
      apply post_bind_any. intros epRows. apply post_ret.
      destruct (Nat.ltb 1 (length epRows)) eqn:El; [|apply ext_refl].
      apply ext_app; [apply ext_refl|]. destruct epRows; [discriminate|reflexivity].
    + intros out Hout. apply post_bind_any. intros added. apply post_ret.
      repeat apply ext_table. exact Hout.
  - (* package *)
    unfold _writePackageOrNamespaceTables. apply (post_bind (Ext o)).
    + destruct (bool_decide _); [|apply post_ret, ext_refl].
      apply post_bind_any. intros epRows. apply post_ret.
      destruct (Nat.ltb 1 (length epRows)) eqn:El; [|apply ext_refl].
      apply ext_app; [apply ext_refl|]. destruct epRows; [discriminate|reflexivity].
    + intros out Hout. apply post_bind_any. intros added. apply post_ret.
      repeat apply ext_table. exact Hout.
Qed.

Lemma exampleLoop_app (bs : list DocBlock) : forall (o a : list DocNode) n total,
  exampleLoop (o ++ a) n total bs = o ++ exampleLoop a n total bs.
Proof.
  induction bs as [|b bs IH]; intros o a n total; simpl; [reflexivity|].
  unfold _appendSection. rewrite <- !app_assoc. rewrite <- IH. reflexivity.
Qed.

Lemma remarks_app (o : list DocNode) (x : ApiItem) :
  _writeRemarksSection o x = o ++ _writeRemarksSection [] x.
Proof.
  unfold _writeRemarksSection. destruct (tsdocComment x) as [c|]; [|by rewrite app_nil_r].
  destruct (remarksBlock c) as [r|].
  - unfold _appendSection. rewrite <- app_assoc, exampleLoop_app. reflexivity.
  - rewrite <- (app_nil_r o) at 1. apply exampleLoop_app.
Qed.

Lemma writePrelude_entry (x : ApiItem) :
  kind x = EntryPoint -> writePrelude env x = [].
Proof. intros H. unfold writePrelude, tsdocComment. rewrite H. reflexivity. Qed.

Lemma writeApiItemPage_pres (fuel : nat) : forall anc t,
  Preserves (EvOK env options) (_writeApiItemPage env options fuel anc t).
Proof.
  induction fuel as [|f IH]; intros anc t; [apply pres_throw|].
  intros tr Htr. cbn [_writeApiItemPage]. set (x := treeItem t).
  unfold mbind at 1.
  pose proof (frontMatterFor_pres (EvOK env options) anc x (fun l => I) tr Htr) as H1.
  destruct (frontMatterFor anc x tr) as [[e|ofm] tr1] eqn:E1; [exact H1|].
  destruct ofm as [fm|]; [|exact H1]. cbv zeta.
  assert (Hw : forall a t', Preserves (EvOK env options) (_writeApiItemPage env options f a t')) by exact IH.
  destruct (remarksFirst (kind x)) eqn:Erf; simpl negb; cbv iota.
  - rewrite remarks_app.
    set (pre := writePrelude env x ++ _writeRemarksSection [] x).
    pose proof (writeKindContent_pres (EvOK env options) (_writeApiItemPage env options f)
                  anc x (treeMembers t) pre (fun l => I) Hw tr1 H1) as H2.
    assert (Hep : kind x = EntryPoint -> pre = []) by (intros Ek; rewrite Ek in Erf; discriminate).
    pose proof (writeKindContent_ext (_writeApiItemPage env options f) anc x (treeMembers t)
                  pre Hep) as Hext.
    unfold mbind.
    destruct (writeKindContent env options (_writeApiItemPage env options f) anc x (treeMembers t) pre tr1)
      as [[e|out] tr2] eqn:E2; [exact H2|].
    destruct (Hext tr1 out tr2 E2) as (K & -> & HK).
    simpl. apply Forall_app. split; [exact H2|]. constructor; [|constructor].
    split; [|eexists; reflexivity].
    exists anc, x, (treeMembers t), (_writeApiItemPage env options f), tr1, tr2, K.
    rewrite Erf. split; [reflexivity|]. split; [exact E2|]. split; [exact HK|reflexivity].
  - set (pre := writePrelude env x).
    pose proof (writeKindContent_pres (EvOK env options) (_writeApiItemPage env options f)
                  anc x (treeMembers t) pre (fun l => I) Hw tr1 H1) as H2.
    assert (Hep : kind x = EntryPoint -> pre = []) by (intros Ek; apply writePrelude_entry, Ek).
    pose proof (writeKindContent_ext (_writeApiItemPage env options f) anc x (treeMembers t)
                  pre Hep) as Hext.
    unfold mbind.
    destruct (writeKindContent env options (_writeApiItemPage env options f) anc x (treeMembers t) pre tr1)
      as [[e|out] tr2] eqn:E2; [exact H2|].
    destruct (Hext tr1 out tr2 E2) as (K & -> & HK).
    simpl. apply Forall_app. split; [exact H2|]. constructor; [|constructor].
    split; [|eexists; reflexivity].
    exists anc, x, (treeMembers t), (_writeApiItemPage env options f), tr1, tr2, K.
    rewrite Erf. split; [reflexivity|]. split; [exact E2|]. split; [exact HK|].
    simpl. rewrite remarks_app, <- app_assoc. reflexivity.
Qed.

Lemma runTrace_ok : Forall (EvOK env options) (runTrace env options).
Proof.
  unfold runTrace, generateFiles.
  assert (P : Preserves (EvOK env options) (generateFiles env options)).
  { unfold generateFiles. apply pres_bind; [apply pres_perform; exact I|]. intros _.
    apply pres_bind; [apply pres_perform; exact I|]. intros _.
    apply pres_bind; [apply pres_perform; exact I|]. intros _.
    apply pres_bind; [apply writeApiItemPage_pres|]. intros _.
    destruct (markdownDocumenterFeature options); [apply pres_perform; exact I | apply pres_ret]. }
  apply P. constructor.
Qed.

End Run.

Lemma writtenPages_shape (env : Collaborators) (options : IMarkdownDocumenterOptions) (tr : list Event) :
  Forall (EvOK env options) tr -> Forall (PageShape env options) (writtenPages tr).
Proof.
  induction tr as [|e tr IH]; intros H; simpl; [constructor|].
  inversion H as [|? ? He Htr]; subst.
  destruct e; simpl; try (apply IH; exact Htr).
  constructor; [apply He | apply IH, Htr].
Qed.

Lemma remarks_wf (x : ApiItem) : tablesWF (_writeRemarksSection [] x) = true.
Proof. apply tablesWF_safe, remarks_safe. reflexivity. Qed.

Lemma prelude_wf (env : Collaborators) (x : ApiItem) : tablesWF (writePrelude env x) = true.
Proof. apply tablesWF_safe, writePrelude_safe. Qed.

Lemma remarks_model (x : ApiItem) : kind x = Model -> _writeRemarksSection [] x = [].
Proof. intros H. unfold _writeRemarksSection, tsdocComment. rewrite H. reflexivity. Qed.

Lemma sapp_crlf (t : string) : String CR (String LF EmptyString) +:+ t = String CR (String LF t).
Proof. reflexivity. Qed.

Lemma crlfOnly_crlf (t : string) : crlfOnly (String CR (String LF t)) = crlfOnly t.
Proof. cbn [crlfOnly]. rewrite !bool_decide_true by reflexivity. reflexivity. Qed.

Lemma crlfOnly_other (c : ascii) (t : string) : c <> CR -> c <> LF -> crlfOnly (String c t) = crlfOnly t.
Proof. intros H1 H2. cbn [crlfOnly]. rewrite !bool_decide_false by assumption. reflexivity. Qed.

Lemma crlfOnly_convertTo_aux (n : nat) : forall s, String.length s <= n ->
  crlfOnly (convertTo (String CR (String LF EmptyString)) s) = true.
Proof.
  induction n as [|n IH]; intros [|c r] Hl; simpl in Hl; try lia; try reflexivity.
  cbn [convertTo]. case_bool_decide as Hc.
  - destruct r as [|c' r']; [reflexivity|]. simpl in Hl.
    case_bool_decide; rewrite sapp_crlf, crlfOnly_crlf; apply IH; simpl; lia.
  - case_bool_decide as Hc2.
    + destruct r as [|c' r']; [reflexivity|]. simpl in Hl.
      case_bool_decide; rewrite sapp_crlf, crlfOnly_crlf; apply IH; simpl; lia.
    + rewrite crlfOnly_other by assumption. apply IH. lia.
Qed.

Lemma crlfOnly_convertTo (s : string) : crlfOnly (convertTo (String CR (String LF EmptyString)) s) = true.
Proof. apply (crlfOnly_convertTo_aux (String.length s)). lia. Qed.

(* ================================================================== *)
(** ** Page bodies (C5, C7) and written files (C10) *)

(** C5: in every page a run writes, no table is empty and every table
    heading is directly followed by its non-empty table: a table that got
    no rows is left out together with its heading. *)
Theorem C5_no_empty_tables (env : Collaborators) (options : IMarkdownDocumenterOptions) :
  Forall (fun p => tablesWF (pageBody p) = true) (writtenPages (runTrace env options)).
Proof.
  eapply Forall_impl; [apply writtenPages_shape, runTrace_ok|].
  intros p (anc & x & ms & w & tr1 & tr2 & K & _ & _ & HK & ->).
  destruct (remarksFirst (kind x));
    repeat apply tablesWF_app; auto using prelude_wf, remarks_wf.
Qed.

(** C7: every written page is the prelude followed, for the kinds class,
    interface, namespace, package and model, by the Remarks and Example
    sections and then the kind-specific part [K], and for every other kind
    by [K] and then the Remarks and Example sections; [K] is what
    [writeKindContent] appended to the body built before it. *)
Theorem C7_remarks_order (env : Collaborators) (options : IMarkdownDocumenterOptions) :
  Forall (fun p => exists anc x ms w tr1 tr2 K,
    pageItem p = anc ++ [x] /\
    ((containerLikeKind (kind x) = true /\
      writeKindContent env options w anc x ms (writePrelude env x ++ _writeRemarksSection [] x) tr1 =
        (inr ((writePrelude env x ++ _writeRemarksSection [] x) ++ K), tr2) /\
      pageBody p = writePrelude env x ++ _writeRemarksSection [] x ++ K) \/
     (containerLikeKind (kind x) = false /\
      writeKindContent env options w anc x ms (writePrelude env x) tr1 =
        (inr (writePrelude env x ++ K), tr2) /\
      pageBody p = writePrelude env x ++ K ++ _writeRemarksSection [] x)))
    (writtenPages (runTrace env options)).
Proof.
  eapply Forall_impl; [apply writtenPages_shape, runTrace_ok|].
  intros p (anc & x & ms & w & tr1 & tr2 & K & Hi & Hk & _ & Hb).
  exists anc, x, ms, w, tr1, tr2, K. split; [exact Hi|]. revert Hk Hb.
  destruct (containerLikeKind (kind x)) eqn:Ec, (remarksFirst (kind x)) eqn:Erf; intros Hk Hb.
  - left. rewrite <- app_assoc in Hb. auto.
  - left. assert (Em : kind x = Model) by (destruct (kind x); try discriminate; reflexivity).
    rewrite remarks_model in Hb |- * by exact Em. rewrite !app_nil_r in *. simpl. auto.
  - destruct (kind x); discriminate.
  - right. auto.
Qed.

(** C10: when the documenter gets no configuration, as [HugoAction]
    builds it, every page file is written with its line endings
    converted to CR LF, whatever the platform's newline is. *)
Theorem C10_cli_pages_crlf (env : Collaborators) (model : ApiTree) (folder : string) :
  Forall (fun e => match e with
                   | WriteFile _ _ c =>
                       (exists s, c = convertTo (String CR (String LF EmptyString)) s) /\ crlfOnly c = true
                   | _ => True
                   end)
    (runTrace env (cliDocumenterOptions model folder)).
Proof.
  eapply Forall_impl; [apply runTrace_ok|].
  intros [l|f|p fn c|]; simpl; auto.
  intros [_ [s ->]]. split; [exists s; reflexivity | apply crlfOnly_convertTo].
Qed.

(* ================================================================== *)
(** ** Inherited members (C8) *)


Lemma logs_run (msgs : list string) : forall tr,
  mfold (fun _ msg => perform (Log (diagnosticLine msg))) tt msgs tr =
  (inr tt, tr ++ map (fun m => Log (diagnosticLine m)) msgs).
Proof.
  induction msgs as [|m msgs IH]; intros tr; simpl.
  - rewrite app_nil_r. reflexivity.
  - unfold mbind. simpl. rewrite IH, <- app_assoc. reflexivity.
Qed.


Section Inherit.

Variable env : Collaborators.
Variable options : IMarkdownDocumenterOptions.
Variable c : DocumenterConfig.
Hypothesis Hconfig : documenterConfig options = Some c.
Hypothesis Hshow : showInheritedMembers c = true.




End Inherit.





(* ================================================================== *)
(** ** The configuration singleton (C9) *)

Lemma withManager_last c h b f n :
  withManager (length h) f (mkProcess c (h ++ [b]) n) =
  (fst (f (docNodeManager b)),
   mkProcess c (h ++ [mkTSDocConfiguration (snd (f (docNodeManager b)))]) n).
Proof.
  unfold withManager. cbn [configHeap _configuration registerDocNodesCalls].
  rewrite lookup_app_r, Nat.sub_diag by lia. cbn.
  destruct (f (docNodeManager b)) as [r m'] eqn:E. cbn.
  rewrite insert_app_r_alt, Nat.sub_diag by lia. reflexivity.
Qed.

Lemma accessN_some i p n : _configuration p = Some i -> accessN n p = (inr (repeat i n), p).
Proof.
  intros H. induction n as [|n IH]; [reflexivity|].
  cbn [accessN]. unfold smbind at 1. unfold configuration at 1. rewrite H.
  unfold smbind. rewrite IH. reflexivity.
Qed.

Ltac run_closed :=
  repeat (unfold smbind at 1; rewrite withManager_last;
          match goal with |- context [fst ?t] =>
            let v := eval vm_compute in t in change t with v
          end;
          cbn [fst snd docNodeManager configHeap _configuration registerDocNodesCalls]).

Lemma configuration_none p :
  _configuration p = None ->
  exists cfg,
    configuration p = (inr (length (configHeap p)),
                       mkProcess (Some (length (configHeap p))) (configHeap p ++ [cfg])
                                 (S (registerDocNodesCalls p))) /\
    customConfigured (docNodeManager cfg) = true /\
    (exists e, fst (registerDocNodes customPackage customDocNodeKinds (docNodeManager cfg)) = inl e).
Proof.
  intros H. unfold configuration. rewrite H.
  unfold smbind at 1, newTSDocConfiguration. cbv beta iota.
  unfold smbind at 1, countRegisterDocNodes. cbv beta iota.
  cbn [configHeap _configuration registerDocNodesCalls].
  run_closed.
  unfold smbind, setConfiguration. cbn [configHeap _configuration registerDocNodesCalls].
  eexists. split; [reflexivity|].
  split; [vm_compute; reflexivity | eexists; vm_compute; reflexivity].
Qed.

(** C9. [CustomDocNodes.configuration] is a memoised singleton. In a
    process where it has not been read yet, any number [S n] of reads
    returns the same configuration object every time (the one allocated by
    the first read) without throwing. The run allocates one object,
    calls [registerDocNodes] once in total, and the object holds each of
    the six custom kinds exactly once, registered by this package, with
    the widened children of EmphasisSpan, Section and Paragraph. A second
    registration of the custom kinds on that object would throw, and no
    read attempts one. *)
Theorem C9_configuration_singleton (p : Process) (n : nat) :
  _configuration p = None ->
  exists cfg,
    accessN (S n) p =
      (inr (repeat (length (configHeap p)) (S n)),
       mkProcess (Some (length (configHeap p))) (configHeap p ++ [cfg]) (S (registerDocNodesCalls p))) /\
    customConfigured (docNodeManager cfg) = true /\
    (exists e, fst (registerDocNodes customPackage customDocNodeKinds (docNodeManager cfg)) = inl e).
Proof.
  intros H. destruct (configuration_none p H) as (cfg & E & Hc & Hd).
  exists cfg. split; [|split; assumption].
  cbn [accessN]. unfold smbind at 1. rewrite E.
  unfold smbind. rewrite (accessN_some (length (configHeap p))) by reflexivity. reflexivity.
Qed.

Lemma C9_configuration_singleton_witness :
  exists cfg,
    accessN 3 initialProcess =
      (inr (repeat (length (configHeap initialProcess)) 3),
       mkProcess (Some (length (configHeap initialProcess))) (configHeap initialProcess ++ [cfg])
                 (S (registerDocNodesCalls initialProcess))) /\
    customConfigured (docNodeManager cfg) = true /\
    (exists e, fst (registerDocNodes customPackage customDocNodeKinds (docNodeManager cfg)) = inl e).
Proof. apply (C9_configuration_singleton initialProcess 2). reflexivity. Defined.

(* ================================================================== *)
(** ** Further properties of a run *)







Section Extra.

Variable env : Collaborators.
Variable options : IMarkdownDocumenterOptions.




(** Every page [_writeApiItemPage] writes is for an item whose front matter
    was produced, under the path and with the contents the code computes. *)
Lemma writeApiItemPage_pres_gen (Q : Event -> Prop) :
  (forall l, Q (Log l)) ->
  (forall anc x fm out tr tr',
     frontMatterFor anc x tr = (inr (Some fm), tr') ->
     let p := mkPage (anc ++ [x]) fm out in
     let fn := pathJoin (_outputFolder options) (_getFilenameForApiItem (anc ++ [x])) in
     Q (WriteFile p fn (pageContents env options p fn))) ->
  forall fuel anc t, Preserves Q (_writeApiItemPage env options fuel anc t).
Proof.
  intros HL HW fuel. induction fuel as [|f IH]; intros anc t; [apply pres_throw|].
  intros tr Htr. cbn [_writeApiItemPage]. set (x := treeItem t).
  unfold mbind at 1.
  pose proof (frontMatterFor_pres Q anc x HL tr Htr) as H1.
  destruct (frontMatterFor anc x tr) as [[e|[fm|]] tr1] eqn:E1; try exact H1.
  cbv zeta beta iota.
  refine (pres_bind Q _ _ _ _ tr1 H1).
  - apply writeKindContent_pres; [exact HL | exact IH].
  - intros out. apply pres_perform. exact (HW anc x fm _ tr tr1 E1).
Qed.

End Extra.

Section ExtraRun.

Variable env : Collaborators.
Variable options : IMarkdownDocumenterOptions.


Lemma run_pres (Q : Event -> Prop) :
  (forall l, Q (Log l)) -> (forall f, Q (EnsureEmptyFolder f)) -> Q OnFinished ->
  (forall anc x fm out tr tr',
     frontMatterFor anc x tr = (inr (Some fm), tr') ->
     let p := mkPage (anc ++ [x]) fm out in
     let fn := pathJoin (_outputFolder options) (_getFilenameForApiItem (anc ++ [x])) in
     Q (WriteFile p fn (pageContents env options p fn))) ->
  Forall Q (runTrace env options).
Proof.
  intros HL HE HO HW. unfold runTrace.
  assert (P : Preserves Q (generateFiles env options)).
  { unfold generateFiles. apply pres_bind; [apply pres_perform, HL|]. intros _.
    apply pres_bind; [apply pres_perform, HL|]. intros _.
    apply pres_bind; [apply pres_perform, HE|]. intros _.
    apply pres_bind; [apply writeApiItemPage_pres_gen; assumption|]. intros _.
    destruct (markdownDocumenterFeature options); [apply pres_perform, HO | apply pres_ret]. }
  apply P. constructor.
Qed.

Lemma frontMatterFor_some anc x tr fm tr' :
  frontMatterFor anc x tr = (inr (Some fm), tr') ->
  supportedKind (kind x) = true /\ isRootEntryPoint x = false /\
  fmMenuWeight fm = (if bool_decide (kind x = Model) then Some 20 else None).
Proof.
  unfold frontMatterFor, isRootEntryPoint. cbv zeta. intros H.
  destruct (kind x) eqn:Ek; unfold mret, mthrow, mbind, perform in H; try discriminate H;
    try (injection H as <- _; split; [reflexivity | split; reflexivity]).
  destruct (bool_decide (displayName x = "")) eqn:Ed; [discriminate H|].
  injection H as <- _. split; [reflexivity | split; reflexivity].
Qed.



(** X3: every page a run writes is for an item of a kind the page writer
    supports and not for the root entry point (whose page is skipped);
    its front matter carries the menu weight 20 exactly when the item is
    the model. *)
Theorem X3_page_items :
  Forall (fun e => match e with
                   | WriteFile p _ _ =>
                       exists anc x, pageItem p = anc ++ [x] /\ supportedKind (kind x) = true /\
                         isRootEntryPoint x = false /\
                         fmMenuWeight (pageFrontMatter p) = (if bool_decide (kind x = Model) then Some 20 else None)
                   | _ => True
                   end) (runTrace env options).
Proof.
  apply run_pres; try (intros; exact I).
  intros anc x fm out tr tr' E. exists anc, x. split; [reflexivity|]. exact (frontMatterFor_some anc x tr fm tr' E).
Qed.

(** X5: the page of an item of an unsupported kind (call signature, enum
    member, index signature) throws "Unsupported API item kind: " followed
    by the kind's name before any event. *)
Theorem X5_unsupported_kind_throws (g : nat) (anc : list ApiItem) (t : ApiTree) (tr : list Event) :
  supportedKind (kind (treeItem t)) = false ->
  _writeApiItemPage env options (S g) anc t tr =
    (inl ("Unsupported API item kind: " +:+ apiItemKindName (kind (treeItem t))), tr).
Proof.
  intros Hk. cbn [_writeApiItemPage]. unfold mbind at 1, frontMatterFor. cbv zeta.
  destruct (kind (treeItem t)); try discriminate Hk; reflexivity.
Qed.

(** X6: the root entry point (kind EntryPoint, empty name) gets no page:
    writing it performs no event, writes none of its members, and returns
    normally. *)
Theorem X6_root_entrypoint_skipped (g : nat) (anc : list ApiItem) (t : ApiTree) (tr : list Event) :
  isRootEntryPoint (treeItem t) = true ->
  _writeApiItemPage env options (S g) anc t tr = (inr tt, tr).
Proof.
  unfold isRootEntryPoint. intros H. apply andb_true_iff in H as [Hk He].
  apply bool_decide_eq_true in Hk, He.
  cbn [_writeApiItemPage]. unfold mbind at 1, frontMatterFor. cbv zeta.
  rewrite Hk, bool_decide_true by exact He. reflexivity.
Qed.

End ExtraRun.


(** X7: a package's page does not depend on the package's ancestors and
    lies in the [_root] folder of its unscoped, filesystem-safe name; the
    members of its root entry point (which has no page of its own) lie in
    sub-folders of that same [_root] folder. *)
Theorem X7_package_root_folder (anc : list ApiItem) (p e x : ApiItem) :
  kind p = Package -> isRootEntryPoint e = true -> isSegmentKind (kind x) = true ->
  let b := getSafeFilenameForName (getUnscopedName (displayName p)) in
  _getFilenameForApiItem (anc ++ [p]) = b +:+ "/_root/_index.md" /\
  _getFilenameForApiItem (anc ++ [p; e; x]) = b +:+ "/_root/" +:+ qualifiedName x +:+ "/_index.md".
Proof.
  intros Hp He Hx b. unfold isRootEntryPoint in He. apply andb_true_iff in He as [Hk Hn].
  apply bool_decide_eq_true in Hk, Hn. split.
  - unfold _getFilenameForApiItem. rewrite last_snoc, bool_decide_false by (rewrite Hp; discriminate).
    rewrite filenameLoop_snoc. unfold filenameStep. rewrite Hp. cbv zeta iota beta.
    rewrite sapp_assoc. reflexivity.
  - replace (anc ++ [p; e; x]) with ((anc ++ [p; e]) ++ [x]) by (rewrite <- app_assoc; reflexivity).
    rewrite filename_segment by exact Hx. unfold ancestorsPath. rewrite foldl_app. simpl foldl.
    unfold filenameStep at 1 2. rewrite Hp, Hk, Hn. cbv zeta iota beta.
    change (Nat.ltb 0 (String.length "")) with false. cbv iota.
    rewrite sapp_assoc. reflexivity.
Qed.

Lemma X7_package_root_folder_witness :
  kind (plainItem Package "@scope/widgets" 1) = Package /\
  isRootEntryPoint (plainItem EntryPoint "" 1) = true /\
  isSegmentKind (kind (plainItem Class_ "Widget" 1)) = true /\
  _getFilenameForApiItem [plainItem Model "" 1; plainItem Package "@scope/widgets" 1] =
    getSafeFilenameForName (getUnscopedName "@scope/widgets") +:+ "/_root/_index.md" /\
  _getFilenameForApiItem [plainItem Model "" 1; plainItem Package "@scope/widgets" 1;
                          plainItem EntryPoint "" 1; plainItem Class_ "Widget" 1] =
    getSafeFilenameForName (getUnscopedName "@scope/widgets") +:+ "/_root/" +:+
      qualifiedName (plainItem Class_ "Widget" 1) +:+ "/_index.md".
Proof.
  split; [reflexivity|]. split; [reflexivity|]. split; [reflexivity|].
  apply (X7_package_root_folder [plainItem Model "" 1] (plainItem Package "@scope/widgets" 1)
           (plainItem EntryPoint "" 1) (plainItem Class_ "Widget" 1)); reflexivity.
Defined.

(** X8: below any parent other than the model and a package, a member
    that adds a path segment gets its page in the sub-folder, named by its
    qualified name, of the folder of the parent's page. *)
Theorem X8_member_folder_nested (anc : list ApiItem) (y x : ApiItem) :
  kind y <> Model -> kind y <> Package -> isSegmentKind (kind x) = true ->
  exists d, _getFilenameForApiItem (anc ++ [y]) = d +:+ "/_index.md" /\
            _getFilenameForApiItem (anc ++ [y; x]) = d +:+ "/" +:+ qualifiedName x +:+ "/_index.md".
Proof.
  intros Hm Hp Hx. exists (ancestorsPath (anc ++ [y])). split.
  - unfold _getFilenameForApiItem. rewrite last_snoc, bool_decide_false by exact Hm.
    rewrite filenameLoop_snoc. unfold ancestorsPath. rewrite foldl_app. simpl foldl.
    unfold filenameStep. destruct (kind y); try reflexivity; congruence.
  - replace (anc ++ [y; x]) with ((anc ++ [y]) ++ [x]) by (rewrite <- app_assoc; reflexivity).
    apply filename_segment, Hx.
Qed.

Lemma X8_member_folder_nested_witness :
  kind (plainItem Class_ "Widget" 1) <> Model /\ kind (plainItem Class_ "Widget" 1) <> Package /\
  isSegmentKind (kind (plainItem Method "render" 1)) = true /\
  exists d,
    _getFilenameForApiItem [plainItem Model "" 1; plainItem Package "w" 1; plainItem EntryPoint "" 1;
                            plainItem Class_ "Widget" 1] = d +:+ "/_index.md" /\
    _getFilenameForApiItem [plainItem Model "" 1; plainItem Package "w" 1; plainItem EntryPoint "" 1;
                            plainItem Class_ "Widget" 1; plainItem Method "render" 1] =
      d +:+ "/" +:+ qualifiedName (plainItem Method "render" 1) +:+ "/_index.md".
Proof.
  split; [discriminate|]. split; [discriminate|]. split; [reflexivity|].
  apply (X8_member_folder_nested [plainItem Model "" 1; plainItem Package "w" 1; plainItem EntryPoint "" 1]
           (plainItem Class_ "Widget" 1) (plainItem Method "render" 1)); [discriminate | discriminate | reflexivity].
Defined.

Lemma appendNodesInParagraph_spec (output ch : list DocNode) :
  appendNodesInParagraph output ch =
    match ch with
    | [] => output
    | _ => match last output with
           | Some (Paragraph p) => removelast output ++ [Paragraph (p ++ ch)]
           | _ => output ++ [Paragraph ch]
           end
    end.
Proof.
  unfold appendNodesInParagraph. revert output.
  induction ch as [|n ch IH] using rev_ind; intros output; [reflexivity|].
  rewrite foldl_app. simpl. rewrite IH. clear IH.
  destruct ch as [|c ch'].
  - unfold appendNodeInParagraph. destruct (last output) as [[]|]; reflexivity.
  - destruct (last output) as [[]|] eqn:El;
      unfold appendNodeInParagraph; rewrite ?last_snoc, ?removelast_last;
      rewrite <- ?app_assoc; simpl; try reflexivity;
      destruct (ch' ++ [n]) eqn:E; try (destruct ch'; discriminate); reflexivity.
Qed.

Lemma appendAndMergeLoop_rest (o : list DocNode) (rest : list DocNode) :
  appendAndMergeLoop o false rest = o ++ rest.
Proof.
  revert o; induction rest as [|n rest IH]; intros o; simpl; [by rewrite app_nil_r|].
  rewrite IH, <- app_assoc. reflexivity.
Qed.

(** X9: [_appendAndMergeSection] merges the children of a leading
    paragraph of the section into the last paragraph of the output (or
    into a new paragraph when the output does not end in one, and adds no
    paragraph when that leading paragraph is empty); every other node is
    appended as it is, in order. *)
Theorem X9_append_and_merge_section (output docSection : list DocNode) :
  _appendAndMergeSection output docSection =
    match docSection with
    | Paragraph [] :: rest => output ++ rest
    | Paragraph ch :: rest =>
        match last output with
        | Some (Paragraph p) => removelast output ++ [Paragraph (p ++ ch)]
        | _ => output ++ [Paragraph ch]
        end ++ rest
    | _ => output ++ docSection
    end.
Proof.
  unfold _appendAndMergeSection. destruct docSection as [|n rest]; simpl; [by rewrite app_nil_r|].
  destruct n; rewrite ?appendAndMergeLoop_rest, <- ?app_assoc; try reflexivity.
  rewrite appendNodesInParagraph_spec. destruct children; reflexivity.
Qed.

Lemma flattenParagraphs_app (a b : list DocNode) :
  flattenParagraphs (a ++ b) = flattenParagraphs a ++ flattenParagraphs b.
Proof. unfold flattenParagraphs. apply flat_map_app. Qed.

Lemma flattenParagraphs_removelast (o : list DocNode) (p : list DocNode) :
  last o = Some (Paragraph p) -> flattenParagraphs o = flattenParagraphs (removelast o) ++ p.
Proof.
  intros H. destruct (exists_last (l := o)) as [o' [n ->]]; [intros ->; discriminate|].
  rewrite last_snoc in H. injection H as ->. rewrite removelast_last, flattenParagraphs_app.
  simpl. by rewrite app_nil_r.
Qed.

(** X10: merging loses, duplicates and reorders nothing: with the
    top-level paragraphs opened up, the result of [_appendAndMergeSection]
    is the output followed by the section. *)
Theorem X10_merge_keeps_content (output docSection : list DocNode) :
  flattenParagraphs (_appendAndMergeSection output docSection) =
    flattenParagraphs output ++ flattenParagraphs docSection.
Proof.
  rewrite X9_append_and_merge_section.
  destruct docSection as [|n rest]; [apply flattenParagraphs_app|].
  destruct n as [| | | |ch| | | | |]; try (apply flattenParagraphs_app).
  destruct ch as [|c ch].
  - rewrite flattenParagraphs_app. reflexivity.
  - rewrite flattenParagraphs_app. change (flattenParagraphs (Paragraph (c :: ch) :: rest))
      with ((c :: ch) ++ flattenParagraphs rest). rewrite app_assoc. f_equal.
    destruct (last output) as [[]|] eqn:El; rewrite ?flattenParagraphs_app; simpl; rewrite ?app_nil_r;
      try reflexivity.
    rewrite (flattenParagraphs_removelast output children El), app_assoc. reflexivity.
Qed.

Lemma X5_unsupported_kind_throws_witness :
  supportedKind (kind (treeItem (Node (plainItem IndexSignature "index" 1) []))) = false /\
  _writeApiItemPage noCollaborators (cliDocumenterOptions widgetsModel "out") 3
    [plainItem Model "" 1] (Node (plainItem IndexSignature "index" 1) []) [Log ""] =
    (inl "Unsupported API item kind: IndexSignature", [Log ""]).
Proof.
  split; [reflexivity|].
  apply (X5_unsupported_kind_throws noCollaborators (cliDocumenterOptions widgetsModel "out") 2
           [plainItem Model "" 1] (Node (plainItem IndexSignature "index" 1) []) [Log ""]).
  reflexivity.
Defined.

Lemma X6_root_entrypoint_skipped_witness :
  isRootEntryPoint (treeItem (Node (plainItem EntryPoint "" 1) [Node (plainItem Class_ "Widget" 1) []])) = true /\
  _writeApiItemPage noCollaborators (cliDocumenterOptions widgetsModel "out") 4
    [plainItem Model "" 1; plainItem Package "w" 1]
    (Node (plainItem EntryPoint "" 1) [Node (plainItem Class_ "Widget" 1) []]) [] = (inr tt, []).
Proof.
  split; [reflexivity|].
  apply (X6_root_entrypoint_skipped noCollaborators (cliDocumenterOptions widgetsModel "out") 3
           [plainItem Model "" 1; plainItem Package "w" 1]
           (Node (plainItem EntryPoint "" 1) [Node (plainItem Class_ "Widget" 1) []]) []).
  reflexivity.
Defined.

Lemma headingTitles_app (a b : list DocNode) :
  headingTitles (a ++ b) = headingTitles a ++ headingTitles b.
Proof. unfold headingTitles. apply flat_map_app. Qed.

Lemma headingTitles_tsdoc (s : list string) : headingTitles (map TsdocNode s) = [].
Proof. induction s as [|n s IH]; [reflexivity | exact IH]. Qed.

Lemma exampleLoop_headings (bs : list DocBlock) : forall o k total,
  headingTitles (exampleLoop o k total bs) =
    headingTitles o ++
    map (fun i => if Nat.ltb 1 total then "Example " +:+ numberToString i else "Example") (seq k (length bs)).
Proof.
  induction bs as [|b bs IH]; intros o k total; simpl; [by rewrite app_nil_r|].
  rewrite IH. unfold _appendSection. rewrite !headingTitles_app, headingTitles_tsdoc.
  simpl. rewrite app_nil_r, <- app_assoc. reflexivity.
Qed.

(** X11: the headings [_writeRemarksSection] writes are "Remarks" when
    the comment has a remarks block, then one heading per [@example]
    block: "Example 1" to "Example n" when there are n > 1 of them, the
    unnumbered "Example" when there is one. *)
Theorem X11_remarks_headings (x : ApiItem) :
  headingTitles (_writeRemarksSection [] x) =
    match tsdocComment x with
    | Some c => match remarksBlock c with Some _ => ["Remarks"] | None => [] end ++
                exampleHeadings (length (blocksTagged "@EXAMPLE" c))
    | None => []
    end.
Proof.
  unfold _writeRemarksSection. destruct (tsdocComment x) as [c|]; [|reflexivity]. cbv zeta.
  rewrite exampleLoop_headings. f_equal.
  - destruct (remarksBlock c); [|reflexivity].
    unfold _appendSection. rewrite headingTitles_app, headingTitles_tsdoc. reflexivity.
  - unfold exampleHeadings. destruct (Nat.ltb 1 (length (blocksTagged "@EXAMPLE" c))) eqn:E; [reflexivity|].
    apply Nat.ltb_ge in E. destruct (length (blocksTagged "@EXAMPLE" c)) as [|[|n]]; [reflexivity|reflexivity|lia].
Qed.

Lemma appendToken_shape (env : Collaborators) (c : list DocNode) (t : ExcerptToken) :
  _appendExcerptTokenWithHyperlinks env c t = c ++ _appendExcerptTokenWithHyperlinks env [] t /\
  exists n, _appendExcerptTokenWithHyperlinks env [] t = [n] /\
            nodeText n = Some (replaceNewlineRuns false (tokenText t)).
Proof.
  unfold _appendExcerptTokenWithHyperlinks. cbv zeta.
  destruct (bool_decide _); [|split; [reflexivity | eexists; split; reflexivity]].
  destruct (canonicalReference t) as [r|]; [|split; [reflexivity | eexists; split; reflexivity]].
  destruct (resolveDeclarationReference env r); split; try reflexivity; eexists; split; reflexivity.
Qed.

Lemma appendExcerpt_app (env : Collaborators) (e : Excerpt) : forall c,
  _appendExcerptWithHyperlinks env c e = c ++ _appendExcerptWithHyperlinks env [] e.
Proof.
  unfold _appendExcerptWithHyperlinks. induction e as [|t e IH]; intros c; simpl; [by rewrite app_nil_r|].
  rewrite (IH (_appendExcerptTokenWithHyperlinks env [] t)), IH.
  rewrite (proj1 (appendToken_shape env c t)). by rewrite app_assoc.
Qed.

(** X12: an excerpt is rendered as one plain-text or link node per token,
    appended in token order after what the container held; each node shows
    the token's text with its runs of line breaks replaced by one space,
    so no rendered text contains a line break. *)
Theorem X12_excerpt_one_node_per_token (env : Collaborators) (c : list DocNode) (e : Excerpt) :
  exists K, _appendExcerptWithHyperlinks env c e = c ++ K /\
    map nodeText K = map (fun t => Some (replaceNewlineRuns false (tokenText t))) e /\
    Forall (fun n => exists s, nodeText n = Some s /\ noNewline s = true) K.
Proof.
  exists (_appendExcerptWithHyperlinks env [] e). split; [apply appendExcerpt_app|].
  induction e as [|t e IH]; [split; [reflexivity | constructor]|].
  change (_appendExcerptWithHyperlinks env [] (t :: e)) with
    (_appendExcerptWithHyperlinks env (_appendExcerptTokenWithHyperlinks env [] t) e).
  rewrite appendExcerpt_app.
  destruct (appendToken_shape env [] t) as [_ (n & En & Hn)]. rewrite En.
  destruct IH as [IH1 IH2]. simpl. split.
  - rewrite Hn. f_equal. exact IH1.
  - constructor; [|exact IH2]. eexists; split; [exact Hn | apply replaceNewlineRuns_noNewline].
Qed.

Lemma commaSeparated_true (env : Collaborators) (es : list Excerpt) : forall p,
  appendCommaSeparated env p true es =
    p ++ concat (map (fun e => PlainText ", " :: _appendExcerptWithHyperlinks env [] e) es).
Proof.
  induction es as [|e es IH]; intros p; simpl; [by rewrite app_nil_r|].
  rewrite IH, appendExcerpt_app, <- !app_assoc. reflexivity.
Qed.

Lemma joinWith_cons {A} (sep : list A) (p : list A) (ps : list (list A)) :
  joinWith sep (p :: ps) = p ++ concat (map (fun q => sep ++ q) ps).
Proof.
  revert p; induction ps as [|q ps IH]; intros p; [simpl; by rewrite app_nil_r|].
  change (joinWith sep (p :: q :: ps)) with (p ++ sep ++ joinWith sep (q :: ps)).
  rewrite IH. simpl. by rewrite <- app_assoc.
Qed.

(** X13: the "Extends:" and "Implements:" lists: [appendCommaSeparated]
    started with [needsComma = false] appends the rendered excerpts in
    order with ", " between each two and none before the first or after
    the last. *)
Theorem X13_comma_separated (env : Collaborators) (p : list DocNode) (es : list Excerpt) :
  appendCommaSeparated env p false es =
    p ++ joinWith [PlainText ", "] (map (_appendExcerptWithHyperlinks env []) es).
Proof.
  destruct es as [|e es]; [simpl; by rewrite app_nil_r|].
  change (appendCommaSeparated env p false (e :: es))
    with (appendCommaSeparated env (_appendExcerptWithHyperlinks env p e) true es).
  rewrite commaSeparated_true, appendExcerpt_app.
  rewrite map_cons, joinWith_cons, map_map, <- app_assoc. reflexivity.
Qed.

Lemma mfold_effect {A B} (F : A -> B -> M A) (g : A -> B -> A) (h : B -> list Event) :
  (forall a b tr, F a b tr = (inr (g a b), tr ++ h b)) ->
  forall l a tr, mfold F a l tr = (inr (foldl g a l), tr ++ flat_map h l).
Proof.
  intros HF l. induction l as [|b l IH]; intros a tr; simpl; [by rewrite app_nil_r|].
  unfold mbind. rewrite HF, IH, <- app_assoc. reflexivity.
Qed.

Lemma foldl_filter_snoc {A B} (P : A -> Prop) `{forall x, Decision (P x)} (r : A -> B) (l : list A) :
  forall acc, foldl (fun rows m => if decide (P m) then rows ++ [r m] else rows) acc l =
              acc ++ map r (filter P l).
Proof.
  induction l as [|m l IH]; intros acc; simpl; [by rewrite app_nil_r|].
  rewrite IH. rewrite filter_cons. destruct (decide (P m)); simpl; [by rewrite <- app_assoc | reflexivity].
Qed.

Lemma flat_map_filter {A} (P : A -> Prop) `{forall x, Decision (P x)} (h : A -> list Event) (l : list A) :
  flat_map (fun m => if decide (P m) then h m else []) l = flat_map h (filter P l).
Proof.
  induction l as [|m l IH]; simpl; [reflexivity|].
  rewrite filter_cons. destruct (decide (P m)); simpl; rewrite IH; reflexivity.
Qed.

(** X14: the model page writes the pages of its package members, in
    order, and of no other member, and lists exactly those packages in
    its "Packages" table, in the same order (no table when there is
    none). *)
Theorem X14_model_table (w : list ApiItem -> ApiTree -> M unit) (f : list ApiItem -> ApiTree -> list Event)
    (hier : list ApiItem) (ms : list ApiTree) (o : list DocNode) (tr : list Event) :
  (forall a t tr0, w a t tr0 = (inr tt, tr0 ++ f a t)) ->
  let packages := filter (fun m => kind (treeItem m) = Package) ms in
  _writeModelTable w hier ms o tr =
    (inr (appendTableSection o "Packages" ["Package"; "Description"]
            (map (fun m => [TitleCell (hier ++ [treeItem m]); DescriptionCell (hier ++ [treeItem m]) false])
                 packages)),
     tr ++ flat_map (f hier) packages).
Proof.
  intros Hw packages. unfold _writeModelTable, mbind at 1.
  rewrite (mfold_effect _
             (fun rows m => if decide (kind (treeItem m) = Package)
                            then rows ++ [[TitleCell (hier ++ [treeItem m]); DescriptionCell (hier ++ [treeItem m]) false]]
                            else rows)
             (fun m => if decide (kind (treeItem m) = Package) then f hier m else [])).
  - unfold mret. rewrite foldl_filter_snoc, flat_map_filter. reflexivity.
  - intros rows m tr0. cbv zeta.
    destruct (decide (kind (treeItem m) = Package)) as [Hc|Hc];
      [rewrite bool_decide_true by exact Hc | rewrite bool_decide_false by exact Hc; by rewrite app_nil_r].
    unfold mbind. rewrite Hw. reflexivity.
Qed.

Lemma X14_model_table_witness :
  (forall (a : list ApiItem) (t : ApiTree) (tr0 : list Event), perform (Log (displayName (treeItem t))) tr0 = (inr tt, tr0 ++ [Log (displayName (treeItem t))])) /\
  _writeModelTable (fun _ t => perform (Log (displayName (treeItem t)))) [plainItem Model "" 1]
    [Node (plainItem Package "a" 1) []; Node (plainItem Class_ "stray" 1) []; Node (plainItem Package "b" 1) []]
    [] [] =
    (inr [Heading "Packages"; Table ["Package"; "Description"]
            [[TitleCell [plainItem Model "" 1; plainItem Package "a" 1];
              DescriptionCell [plainItem Model "" 1; plainItem Package "a" 1] false];
             [TitleCell [plainItem Model "" 1; plainItem Package "b" 1];
              DescriptionCell [plainItem Model "" 1; plainItem Package "b" 1] false]]],
     [Log "a"; Log "b"]).
Proof.
  split; [intros; reflexivity|].
  exact (X14_model_table (fun _ t => perform (Log (displayName (treeItem t))))
           (fun _ t => [Log (displayName (treeItem t))]) [plainItem Model "" 1]
           [Node (plainItem Package "a" 1) []; Node (plainItem Class_ "stray" 1) []; Node (plainItem Package "b" 1) []]
           [] [] (fun a t tr0 => eq_refl)).
Defined.

Lemma bind_inv {A B} (m : M A) (f : A -> M B) tr b tr' :
  mbind m f tr = (inr b, tr') -> exists a tr1, m tr = (inr a, tr1) /\ f a tr1 = (inr b, tr').
Proof. unfold mbind. destruct (m tr) as [[e|a] tr1]; [discriminate | eauto]. Qed.

Lemma mfold_length {A B} (F : list A -> B -> M (list A)) :
  (forall rows b tr r tr', F rows b tr = (inr r, tr') -> length r = S (length rows)) ->
  forall l acc tr r tr', mfold F acc l tr = (inr r, tr') -> length r = length acc + length l.
Proof.
  intros HF l. induction l as [|b l IH]; intros acc tr r tr' H; simpl in H.
  - injection H as <- _. simpl. lia.
  - apply bind_inv in H as (a & tr1 & E1 & E2). apply HF in E1. apply IH in E2. simpl. lia.
Qed.

Lemma mfold_trace {A B} (F : A -> B -> M A) (h : B -> list Event) :
  (forall a b tr, exists a', F a b tr = (inr a', tr ++ h b)) ->
  forall l a tr, exists a', mfold F a l tr = (inr a', tr ++ flat_map h l).
Proof.
  intros HF l. induction l as [|b l IH]; intros a tr; simpl; [exists a; by rewrite app_nil_r|].
  destruct (HF a b tr) as (a1 & E1). destruct (IH a1 (tr ++ h b)) as (a2 & E2).
  exists a2. unfold mbind. rewrite E1, E2, <- app_assoc. reflexivity.
Qed.

Lemma noEntrypoints_table (o r : list DocNode) t h rows :
  t <> "Entrypoints" ->
  (exists K, r = o ++ K /\ Heading "Entrypoints" ∉ K) ->
  exists K, appendTableSection r t h rows = o ++ K /\ Heading "Entrypoints" ∉ K.
Proof.
  intros Ht (K & -> & HK). unfold appendTableSection. destruct rows; [exists K; split; auto|].
  exists (K ++ [Heading t; Table h (d :: rows)]). rewrite app_assoc. split; [reflexivity|].
  rewrite elem_of_app, !elem_of_cons. intros [H|[H|[H|H]]]; [exact (HK H) | congruence | discriminate | ].
  apply not_elem_of_nil in H. exact H.
Qed.

(** X15: a package page has the "Entrypoints" heading and its table, with
    one row per entry point, exactly when the package has more than one
    entry point; the tables added after it never carry that heading. *)
Theorem X15_package_entrypoints_table (w : list ApiItem -> ApiTree -> M unit) (hier : list ApiItem)
    (x : ApiItem) (ms : list ApiTree) (o : list DocNode) (tr : list Event) (out : list DocNode) (tr' : list Event) :
  kind x = Package ->
  _writePackageOrNamespaceTables w hier x ms o tr = (inr out, tr') ->
  exists rows, length rows = length ms /\ exists K,
    out = (if Nat.ltb 1 (length ms) then o ++ [Heading "Entrypoints"; Table ["Path"] rows] else o) ++ K /\
    Heading "Entrypoints" ∉ K.
Proof.
  intros Hk H. unfold _writePackageOrNamespaceTables in H. rewrite Hk, bool_decide_true in H by reflexivity.
  apply bind_inv in H as (out1 & tr1 & H1 & H2).
  apply bind_inv in H1 as (epRows & tr2 & E1 & E2). unfold mret in E2. injection E2 as <- _.
  apply bind_inv in H2 as (added & tr3 & E3 & E4). unfold mret in E4. injection E4 as <- _.
  apply mfold_length in E1.
  2: { intros rows b t0 r t1 Hs. apply bind_inv in Hs as (u & t2 & _ & Hs). unfold mret in Hs.
       injection Hs as <- _. rewrite length_app. simpl. lia. }
  simpl in E1. exists epRows. split; [exact E1|]. rewrite <- E1.
  repeat (apply noEntrypoints_table; [discriminate|]).
  exists []. split; [by rewrite app_nil_r | apply not_elem_of_nil].
Qed.

Lemma X15_package_entrypoints_table_witness :
  exists out tr',
    kind (plainItem Package "p" 1) = Package /\
    _writePackageOrNamespaceTables (fun _ t => perform (Log (displayName (treeItem t))))
      [plainItem Model "" 1] (plainItem Package "p" 1)
      [Node (plainItem EntryPoint "" 1) []; Node (plainItem EntryPoint "sub" 1) []] [] [] = (inr out, tr') /\
    exists rows, length rows = 2 /\ exists K,
      out = (if Nat.ltb 1 2 then [] ++ [Heading "Entrypoints"; Table ["Path"] rows] else []) ++ K /\
      Heading "Entrypoints" ∉ K.
Proof.
  eexists _, _. split; [reflexivity|]. split; [reflexivity|].
  exact (X15_package_entrypoints_table (fun _ t => perform (Log (displayName (treeItem t))))
           [plainItem Model "" 1] (plainItem Package "p" 1)
           [Node (plainItem EntryPoint "" 1) []; Node (plainItem EntryPoint "sub" 1) []] [] [] _ _
           eq_refl eq_refl).
Defined.

(** X16: a package page first writes the page of each of its entry points,
    in order, then the pages of the members of those entry points, in
    order; a namespace page writes the pages of its own members. Of these
    members only classes, enums, functions, interfaces, namespaces,
    variables and type aliases (the kinds of its tables) get a page. *)
Theorem X16_package_pages_order (w : list ApiItem -> ApiTree -> M unit) (f : list ApiItem -> ApiTree -> list Event)
    (hier : list ApiItem) (x : ApiItem) (ms : list ApiTree) (o : list DocNode) (tr : list Event) :
  (forall a t tr0, w a t tr0 = (inr tt, tr0 ++ f a t)) ->
  snd (_writePackageOrNamespaceTables w hier x ms o tr) =
    tr ++ (if bool_decide (kind x = Package) then flat_map (f hier) ms else []) ++
    flat_map (fun p => f p.1 p.2)
      (filter (fun p => packageTableFor (treeItem p.2) <> None)
         (if bool_decide (kind x = Package)
          then flat_map (fun ep => map (fun m => (hier ++ [treeItem ep], m)) (treeMembers ep)) ms
          else map (fun m => (hier, m)) ms)).
Proof.
  intros Hw. unfold _writePackageOrNamespaceTables.
  set (h2 := fun p : list ApiItem * ApiTree =>
               if decide (packageTableFor (treeItem p.2) <> None) then f p.1 p.2 else []).
  assert (S2 : forall (added : list (PackageTable * DocTableRow)) (b : list ApiItem * ApiTree) tr0,
            exists a', (let '(manc, m) := b in
                        match packageTableFor (treeItem m) with
                        | Some tbl => w manc m ;;; mret (added ++ [(tbl, [TitleCell (manc ++ [treeItem m]);
                                                                      DescriptionCell (manc ++ [treeItem m]) false])])
                        | None => mret added
                        end) tr0 = (inr a', tr0 ++ h2 b)).
  { intros added [manc m] tr0. unfold h2. simpl fst; simpl snd.
    destruct (packageTableFor (treeItem m)) eqn:Ep.
    - rewrite decide_True by discriminate. unfold mbind. rewrite Hw. eexists. reflexivity.
    - rewrite decide_False by (intros C; exact (C eq_refl)). eexists. by rewrite app_nil_r. }
  destruct (bool_decide (kind x = Package)); unfold mbind at 1 2.
  - match goal with |- context [mfold ?F [] ms ?t] =>
      assert (S1 : forall a b tr0, exists a', F a b tr0 = (inr a', tr0 ++ f hier b));
      [ intros a b tr0; cbv beta zeta; unfold mbind; rewrite Hw; eexists; reflexivity
      | destruct (mfold_trace F _ S1 ms [] t) as (epRows & E1); rewrite E1 ]
    end.
    unfold mret at 1. unfold mbind.
    match goal with |- context [mfold ?F [] ?l ?t] =>
      destruct (mfold_trace F h2 S2 l [] t) as (added & E2); rewrite E2
    end.
    unfold h2. rewrite flat_map_filter. simpl. by rewrite <- app_assoc.
  - unfold mret at 1. unfold mbind.
    match goal with |- context [mfold ?F [] ?l ?t] =>
      destruct (mfold_trace F h2 S2 l [] t) as (added & E2); rewrite E2
    end.
    unfold h2. rewrite flat_map_filter. reflexivity.
Qed.

Lemma X16_package_pages_order_witness :
  (forall (a : list ApiItem) (t : ApiTree) (tr0 : list Event),
     perform (Log (displayName (treeItem t))) tr0 = (inr tt, tr0 ++ [Log (displayName (treeItem t))])) /\
  snd (_writePackageOrNamespaceTables (fun _ t => perform (Log (displayName (treeItem t))))
         [plainItem Model "" 1] (plainItem Package "p" 1)
         [Node (plainItem EntryPoint "" 1) [Node (plainItem Class_ "A" 1) []; Node (plainItem Method "m" 1) []];
          Node (plainItem EntryPoint "sub" 1) [Node (plainItem Function_ "g" 1) []]] [] []) =
    [Log ""; Log "sub"; Log "A"; Log "g"].
Proof.
  split; [intros; reflexivity|].
  rewrite (X16_package_pages_order (fun _ t => perform (Log (displayName (treeItem t))))
             (fun _ t => [Log (displayName (treeItem t))]) [plainItem Model "" 1] (plainItem Package "p" 1)
             [Node (plainItem EntryPoint "" 1) [Node (plainItem Class_ "A" 1) []; Node (plainItem Method "m" 1) []];
              Node (plainItem EntryPoint "sub" 1) [Node (plainItem Function_ "g" 1) []]] [] []
             (fun a t tr0 => eq_refl)).
  vm_compute. reflexivity.
Defined.

Section ExtraTables.

Variable env : Collaborators.
Variable options : IMarkdownDocumenterOptions.

Lemma getMembers_run hier ms o tr :
  let showInherited := match documenterConfig options with Some c => showInheritedMembers c | None => false end in
  let R := findMembersWithInheritance env hier in
  _getMembersAndWriteIncompleteWarning env options hier ms o tr =
    (inr (if showInherited then foundItems R else map (fun m => (hier, m)) ms,
          if showInherited && maybeIncompleteResult R then o ++ [incompleteWarning] else o),
     tr ++ if showInherited then map (fun m => Log (diagnosticLine m)) (messages R) else []).
Proof.
  intros showInherited R. unfold _getMembersAndWriteIncompleteWarning, _documenterConfig. fold showInherited.
  destruct showInherited; cbn [negb]; cbv beta iota.
  - unfold mbind. rewrite logs_run. reflexivity.
  - unfold mret. by rewrite app_nil_r.
Qed.

(** X17: a class page writes pages for its constructors, methods and
    properties, an interface page for its construct, method and property
    signatures, in order, and for no other member. The members are the
    item's own ones, or, when inherited members are shown, those
    [findMembersWithInheritance] reports (each with its own ancestors),
    after one log line per diagnostic message. *)
Theorem X17_class_interface_pages (w : list ApiItem -> ApiTree -> M unit) (f : list ApiItem -> ApiTree -> list Event)
    (anc : list ApiItem) (x : ApiItem) (ms : list ApiTree) (o : list DocNode) (tr : list Event) :
  (forall a t tr0, w a t tr0 = (inr tt, tr0 ++ f a t)) ->
  kind x = Class_ \/ kind x = Interface ->
  let hier := anc ++ [x] in
  let showInherited := match documenterConfig options with Some c => showInheritedMembers c | None => false end in
  let R := findMembersWithInheritance env hier in
  let hasPage := if bool_decide (kind x = Class_) then classMemberPageKind else interfaceMemberPageKind in
  snd (writeKindContent env options w anc x ms o tr) =
    tr ++ (if showInherited then map (fun m => Log (diagnosticLine m)) (messages R) else []) ++
    flat_map (fun p => f p.1 p.2)
      (filter (fun p => hasPage (kind (treeItem p.2)) = true)
         (if showInherited then foundItems R else map (fun m => (hier, m)) ms)).
Proof.
  intros Hw Hk hier showInherited R hasPage. unfold writeKindContent. cbv zeta.
  destruct Hk as [Hk|Hk]; rewrite Hk; [unfold _writeClassTables | unfold _writeInterfaceTables];
    unfold mbind at 1; rewrite getMembers_run; fold showInherited R; cbv beta iota; unfold mbind;
    unfold hasPage; rewrite Hk; [rewrite bool_decide_true by reflexivity | rewrite bool_decide_false by discriminate].
  - match goal with |- context [mfold ?F [] ?l ?t] =>
      assert (S : forall a b tr0, exists a', F a b tr0 =
                    (inr a', tr0 ++ (fun p => if decide (classMemberPageKind (kind (treeItem p.2)) = true)
                                              then f p.1 p.2 else []) b));
      [| destruct (mfold_trace F _ S l [] t) as (added & E); rewrite E]
    end.
    + intros a [manc m] tr0. cbv beta iota zeta. simpl fst; simpl snd.
      destruct (kind (treeItem m)) eqn:Ek; simpl classMemberPageKind;
        try (rewrite decide_False by discriminate; eexists; by rewrite app_nil_r);
        rewrite decide_True by reflexivity; unfold mbind; rewrite Hw; eexists; reflexivity.
    + rewrite flat_map_filter. simpl. by rewrite <- app_assoc.
  - match goal with |- context [mfold ?F [] ?l ?t] =>
      assert (S : forall a b tr0, exists a', F a b tr0 =
                    (inr a', tr0 ++ (fun p => if decide (interfaceMemberPageKind (kind (treeItem p.2)) = true)
                                              then f p.1 p.2 else []) b));
      [| destruct (mfold_trace F _ S l [] t) as (added & E); rewrite E]
    end.
    + intros a [manc m] tr0. cbv beta iota zeta. simpl fst; simpl snd.
      destruct (kind (treeItem m)) eqn:Ek; simpl interfaceMemberPageKind;
        try (rewrite decide_False by discriminate; eexists; by rewrite app_nil_r);
        rewrite decide_True by reflexivity; unfold mbind; rewrite Hw; eexists; reflexivity.
    + rewrite flat_map_filter. simpl. by rewrite <- app_assoc.
Qed.

End ExtraTables.

Lemma X17_class_interface_pages_witness :
  (forall (a : list ApiItem) (t : ApiTree) (tr0 : list Event),
     perform (Log (displayName (treeItem t))) tr0 = (inr tt, tr0 ++ [Log (displayName (treeItem t))])) /\
  (kind (plainItem Class_ "Widget" 1) = Class_ \/ kind (plainItem Class_ "Widget" 1) = Interface) /\
  snd (writeKindContent noCollaborators (cliDocumenterOptions widgetsModel "out")
         (fun _ t => perform (Log (displayName (treeItem t)))) [plainItem Model "" 1] (plainItem Class_ "Widget" 1)
         [Node (plainItem Constructor "(constructor)" 1) []; Node (plainItem CallSignature "call" 1) [];
          Node (plainItem Method "render" 1) []] [] []) =
    [Log "(constructor)"; Log "render"].
Proof.
  split; [intros; reflexivity|]. split; [left; reflexivity|].
  rewrite (X17_class_interface_pages noCollaborators (cliDocumenterOptions widgetsModel "out")
             (fun _ t => perform (Log (displayName (treeItem t)))) (fun _ t => [Log (displayName (treeItem t))])
             [plainItem Model "" 1] (plainItem Class_ "Widget" 1)
             [Node (plainItem Constructor "(constructor)" 1) []; Node (plainItem CallSignature "call" 1) [];
              Node (plainItem Method "render" 1) []] [] [] (fun a t tr0 => eq_refl) (or_introl eq_refl)).
  vm_compute. reflexivity.
Defined.

(** X18: in the "Entrypoints" table of a package, the link of the root
    entry point (which has no page) is the link of the package's own page. *)
Theorem X18_root_entrypoint_link (anc : list ApiItem) (p e : ApiItem) :
  kind p = Package -> isRootEntryPoint e = true ->
  _getLinkFilenameForApiItem (anc ++ [p; e]) = _getLinkFilenameForApiItem (anc ++ [p]).
Proof.
  intros Hp He. unfold isRootEntryPoint in He. apply andb_true_iff in He as [Hk Hn].
  apply bool_decide_eq_true in Hk, Hn. unfold _getLinkFilenameForApiItem. do 2 f_equal.
  replace (anc ++ [p; e]) with ((anc ++ [p]) ++ [e]) by (rewrite <- app_assoc; reflexivity).
  unfold _getFilenameForApiItem. rewrite !last_snoc.
  rewrite !bool_decide_false by (rewrite ?Hp, ?Hk; discriminate).
  rewrite !filenameLoop_snoc, foldl_app. simpl foldl. unfold filenameStep. rewrite Hp, Hk, Hn.
  cbv zeta iota beta. change (Nat.ltb 0 (String.length "")) with false. reflexivity.
Qed.

Lemma X18_root_entrypoint_link_witness :
  kind (plainItem Package "@scope/widgets" 1) = Package /\ isRootEntryPoint (plainItem EntryPoint "" 1) = true /\
  _getLinkFilenameForApiItem [plainItem Model "" 1; plainItem Package "@scope/widgets" 1; plainItem EntryPoint "" 1] =
  _getLinkFilenameForApiItem [plainItem Model "" 1; plainItem Package "@scope/widgets" 1].
Proof.
  split; [reflexivity|]. split; [reflexivity|].
  exact (X18_root_entrypoint_link [plainItem Model "" 1] (plainItem Package "@scope/widgets" 1)
           (plainItem EntryPoint "" 1) eq_refl eq_refl).
Defined.

Lemma pres_bind_post {A B} Q (P : A -> Prop) (m : M A) (f : A -> M B) :
  Preserves Q m -> Post P m -> (forall a, P a -> Preserves Q (f a)) -> Preserves Q (mbind m f).
Proof.
  intros Hm Hp Hf tr H. unfold mbind. pose proof (Hm tr H) as H1.
  destruct (m tr) as [[e|a] tr1] eqn:E; [exact H1 | exact (Hf a (Hp tr a tr1 E) tr1 H1)].
Qed.

Lemma pres_mfold_in {A B} Q (f : A -> B -> M A) (l : list B) :
  (forall a b, In b l -> Preserves Q (f a b)) -> forall a, Preserves Q (mfold f a l).
Proof.
  induction l as [|b l IH]; intros Hf a; simpl; [apply pres_ret|].
  apply pres_bind; [apply Hf; left; reflexivity|]. intros a'. apply IH. intros; apply Hf; right; assumption.
Qed.

Lemma frontMatterFor_none anc x tr tr' :
  frontMatterFor anc x tr = (inr None, tr') -> isRootEntryPoint x = true.
Proof.
  unfold frontMatterFor, isRootEntryPoint. cbv zeta. intros H.
  destruct (kind x) eqn:Ek; unfold mret, mthrow, mbind, perform in H; try discriminate H.
  destruct (bool_decide (displayName x = "")) eqn:Ed; [reflexivity | discriminate H].
Qed.

Section ExtraLocal.

Variable env : Collaborators.
Variable options : IMarkdownDocumenterOptions.
Hypothesis Hshow : match documenterConfig options with Some c => showInheritedMembers c | None => false end = false.

Lemma getMembers_own hier ms o :
  Post (fun r => fst r = map (fun m => (hier, m)) ms) (_getMembersAndWriteIncompleteWarning env options hier ms o).
Proof.
  intros tr a tr' E. unfold _getMembersAndWriteIncompleteWarning, _documenterConfig in E. cbv zeta in E.
  rewrite Hshow in E. injection E as <- _. reflexivity.
Qed.

Lemma writeKindContent_pres_local Q (w : list ApiItem -> ApiTree -> M unit) anc x ms o :
  (forall l, Q (Log l)) ->
  (forall a t, (exists s, a = (anc ++ [x]) ++ s) -> Preserves Q (w a t)) ->
  Preserves Q (writeKindContent env options w anc x ms o).
Proof.
  intros HL Hw.
  assert (Hw0 : forall t, Preserves Q (w (anc ++ [x]) t)) by (intros t; apply Hw; exists []; by rewrite app_nil_r).
  unfold writeKindContent. cbv zeta. destruct (kind x) eqn:Ek; try apply pres_ret; try apply pres_throw.
  - unfold _writeClassTables.
    apply (pres_bind_post Q (fun r => fst r = map (fun m => (anc ++ [x], m)) ms)).
    + unfold _getMembersAndWriteIncompleteWarning. cbv zeta. pres_tac.
    + apply getMembers_own.
    + intros [am out] Ham. simpl in Ham. subst am. apply pres_bind; [|intros; apply pres_ret].
      apply pres_mfold_in. intros a [manc m] Hin. apply in_map_iff in Hin as (m' & Heq & _).
      injection Heq as <- <-. cbv beta iota zeta.
      destruct (kind (treeItem m')); try apply pres_ret; (apply pres_bind; [apply Hw0 | intros; apply pres_ret]).
  - unfold _writeInterfaceTables.
    apply (pres_bind_post Q (fun r => fst r = map (fun m => (anc ++ [x], m)) ms)).
    + unfold _getMembersAndWriteIncompleteWarning. cbv zeta. pres_tac.
    + apply getMembers_own.
    + intros [am out] Ham. simpl in Ham. subst am. apply pres_bind; [|intros; apply pres_ret].
      apply pres_mfold_in. intros a [manc m] Hin. apply in_map_iff in Hin as (m' & Heq & _).
      injection Heq as <- <-. cbv beta iota zeta.
      destruct (kind (treeItem m')); try apply pres_ret; (apply pres_bind; [apply Hw0 | intros; apply pres_ret]).
  - unfold _writeModelTable. apply pres_bind; [|intros; apply pres_ret]. apply pres_mfold.
    intros a m. cbv zeta. destruct (bool_decide _); [|apply pres_ret].
    apply pres_bind; [apply Hw0 | intros; apply pres_ret].
  - unfold _writePackageOrNamespaceTables. rewrite Ek, bool_decide_false by discriminate.
    apply pres_bind; [apply pres_ret|]. intros out. apply pres_bind; [|intros; apply pres_ret].
    apply pres_mfold_in. intros a [manc m] Hin. apply in_map_iff in Hin as (m' & Heq & _).
    injection Heq as <- <-. cbv beta iota zeta.
    destruct (packageTableFor (treeItem m')); [|apply pres_ret].
    apply pres_bind; [apply Hw0 | intros; apply pres_ret].
  - unfold _writePackageOrNamespaceTables. rewrite Ek, bool_decide_true by reflexivity.
    apply pres_bind.
    + apply pres_bind; [|intros; apply pres_ret]. apply pres_mfold. intros. cbv zeta.
      apply pres_bind; [apply Hw0 | intros; apply pres_ret].
    + intros out. apply pres_bind; [|intros; apply pres_ret].
      apply pres_mfold_in. intros a [manc m] Hin. apply in_flat_map in Hin as (ep & _ & Hin).
      apply in_map_iff in Hin as (m' & Heq & _). injection Heq as <- <-. cbv beta iota zeta.
      destruct (packageTableFor (treeItem m')); [|apply pres_ret].
      apply pres_bind; [apply Hw; exists [treeItem ep]; reflexivity | intros; apply pres_ret].
Qed.

Lemma writeApiItemPage_local (g : nat) : forall a t h, (exists s, a = h ++ s) ->
  Preserves (writesBelow h) (_writeApiItemPage env options g a t).
Proof.
  induction g as [|g IH]; intros a t h Hs; [apply pres_throw|].
  intros tr Htr. cbn [_writeApiItemPage]. set (x := treeItem t). unfold mbind at 1.
  pose proof (frontMatterFor_pres (writesBelow h) a x (fun l => I) tr Htr) as H1.
  destruct (frontMatterFor a x tr) as [[e|[fm|]] tr1] eqn:E1; try exact H1.
  cbv zeta beta iota. refine (pres_bind _ _ _ _ _ tr1 H1).
  - apply writeKindContent_pres_local; [intros; exact I|].
    intros a' t' [s' ->]. apply IH. destruct Hs as [s ->]. exists (s ++ [x] ++ s'). by rewrite <- !app_assoc.
  - intros out. apply pres_perform. destruct Hs as [s ->]. exists (s ++ [x]). split; [by rewrite app_assoc|].
    intros E. apply app_eq_nil in E as [_ E]. discriminate E.
Qed.

(** X19: with inherited members not shown, an item's page is written
    last, after the pages of its members, and every page written before it
    is for an item strictly below it in the tree: the pages are written in
    post-order. *)
Theorem X19_page_written_after_subtree (g : nat) (anc : list ApiItem) (t : ApiTree) :
  fst (_writeApiItemPage env options g anc t []) = inr tt -> isRootEntryPoint (treeItem t) = false ->
  exists K p fn c,
    snd (_writeApiItemPage env options g anc t []) = K ++ [WriteFile p fn c] /\
    pageItem p = anc ++ [treeItem t] /\
    Forall (writesBelow (anc ++ [treeItem t])) K.
Proof.
  intros Hok Hroot. destruct g as [|g]; [discriminate Hok|].
  revert Hok. cbn [_writeApiItemPage]. set (x := treeItem t) in *. unfold mbind at 1 3.
  pose proof (frontMatterFor_pres (writesBelow (anc ++ [x])) anc x (fun l => I) [] (List.Forall_nil _)) as H1.
  destruct (frontMatterFor anc x []) as [[e|[fm|]] tr1] eqn:E1; [discriminate | |].
  2: { apply frontMatterFor_none in E1. congruence. }
  cbv zeta beta iota. unfold mbind.
  match goal with |- context [writeKindContent env options ?w anc x ?ms ?o tr1] =>
    pose proof (writeKindContent_pres_local (writesBelow (anc ++ [x])) w anc x ms o (fun l => I)
                  (fun a' t' Hs => writeApiItemPage_local g a' t' (anc ++ [x]) Hs) tr1 H1) as H2;
    destruct (writeKindContent env options w anc x ms o tr1) as [[e|out] tr2]
  end; [discriminate|]. intros _.
  eexists tr2, _, _, _. split; [reflexivity|]. split; [reflexivity | exact H2].
Qed.

End ExtraLocal.

Lemma X19_page_written_after_subtree_witness :
  match documenterConfig (cliDocumenterOptions widgetsModel "out") with
  | Some c => showInheritedMembers c | None => false end = false /\
  fst (_writeApiItemPage noCollaborators (cliDocumenterOptions widgetsModel "out") 6 [] widgetsModel []) = inr tt /\
  isRootEntryPoint (treeItem widgetsModel) = false /\
  exists K p fn c,
    snd (_writeApiItemPage noCollaborators (cliDocumenterOptions widgetsModel "out") 6 [] widgetsModel []) =
      K ++ [WriteFile p fn c] /\
    pageItem p = [] ++ [treeItem widgetsModel] /\
    Forall (writesBelow ([] ++ [treeItem widgetsModel])) K.
Proof.
  split; [reflexivity|]. split; [vm_compute; reflexivity|]. split; [reflexivity|].
  apply (X19_page_written_after_subtree noCollaborators (cliDocumenterOptions widgetsModel "out") eq_refl 6 []
           widgetsModel); [vm_compute; reflexivity | reflexivity].
Defined.
